(** * oflight.py: orientation-flight priority points and slotting

    A shallow embedding of [oflight.py] and the properties of its scoring
    and slotting pipeline.

    Conventions of the embedding.
    - A Python [str] is a [string]; a character is a code point below 256.
    - A Python [int] is a [Z].
    - A cell of a pandas table is a [cell]: the missing value NaN, a text,
      or an integer (other floats, booleans and dates do not occur in the
      columns the program reads).
    - A row ([pd.Series] with unique labels) is a [gmap string cell]; a
      lookup that finds nothing is Python's [KeyError].
    - Code that can raise returns a [result]; [datetime.now()] is the
      explicit argument [today].
    - Library calls ([str.strip], [str.split], [datetime.strptime],
      [DataFrame.sort_values], ...) are modelled next to their callers. *)

From Stdlib Require Import ZArith Ascii String List Permutation Sorted Mergesort Orders Lia Bool.
From Stdlib Require Import Numbers.DecimalString.
From stdpp Require Import base option list sorting gmap strings sets fin_maps.

Local Open Scope Z_scope.

(* ===================================================================== *)
(** ** Python strings *)
(* ===================================================================== *)

Module PyStr.

Definition code (c : ascii) : Z := Z.of_N (N_of_ascii c).

(** [str.isspace] on one character (code points below 256). *)
Definition isspace (c : ascii) : bool :=
  let n := code c in
  ((9 <=? n) && (n <=? 13)) || ((28 <=? n) && (n <=? 32))
  || (n =? 133) || (n =? 160).

(** The regular expression class [\d] (code points below 256). *)
Definition isdigit (c : ascii) : bool :=
  let n := code c in (48 <=? n) && (n <=? 57).

Definition digit_value (c : ascii) : Z := code c - 48.

(** [str.lower] on one character, ASCII letters. *)
Definition lower (c : ascii) : ascii :=
  let n := code c in
  if (65 <=? n) && (n <=? 90) then ascii_of_N (Z.to_N (n + 32)) else c.

Fixpoint lstrip (s : string) : string :=
  match s with
  | EmptyString => EmptyString
  | String c r => if isspace c then lstrip r else s
  end.

Definition rstrip (s : string) : string :=
  String.rev (lstrip (String.rev s)).

(** [s.strip()] *)
Definition strip (s : string) : string := rstrip (lstrip s).

(** [s.split(sep)] for a one-character separator. *)
Fixpoint split_go (sep : ascii) (cur : string) (s : string) : list string :=
  match s with
  | EmptyString => [String.rev cur]
  | String c r =>
      if Ascii.eqb c sep then String.rev cur :: split_go sep EmptyString r
      else split_go sep (String c cur) r
  end.

Definition split (sep : ascii) (s : string) : list string :=
  split_go sep EmptyString s.

(** Truth value of a string: [bool(s)]. *)
Definition truthy (s : string) : bool :=
  match s with EmptyString => false | _ => true end.

(** [str(n)] for an integer. *)
Definition of_int (n : Z) : string := NilZero.string_of_int (Z.to_int n).

End PyStr.

(* ===================================================================== *)
(** ** [datetime] and [datetime.strptime] *)
(* ===================================================================== *)

Record datetime := mk_datetime { year : Z; month : Z; day : Z }.

Module Strptime.

Definition is_leap (y : Z) : bool :=
  (y mod 4 =? 0) && (negb (y mod 100 =? 0) || (y mod 400 =? 0)).

Definition days_in_month (y m : Z) : Z :=
  if m =? 2 then (if is_leap y then 29 else 28)
  else if (m =? 4) || (m =? 6) || (m =? 9) || (m =? 11) then 30
  else 31.

(** The range checks of the [date] constructor
    ([MINYEAR = 1], [MAXYEAR = 9999]). *)
Definition valid_date (y m d : Z) : bool :=
  (1 <=? y) && (y <=? 9999) && (1 <=? m) && (m <=? 12)
  && (1 <=? d) && (d <=? days_in_month y m).

(** A backtracking matcher: the ways a pattern matches a prefix of the
    input, most preferred first, each with the captured value and the
    rest of the input. *)
Definition matcher (A : Type) := string -> list (A * string).

Definition m_ret {A} (a : A) : matcher A := fun s => [(a, s)].

Definition m_bind {A B} (m : matcher A) (k : A -> matcher B) : matcher B :=
  fun s => concat (List.map (fun '(a, r) => k a r) (m s)).

Definition m_alt {A} (m1 m2 : matcher A) : matcher A :=
  fun s => m1 s ++ m2 s.

(** One character satisfying [p]. *)
Definition m_char (p : ascii -> bool) : matcher ascii :=
  fun s => match s with
           | String c r => if p c then [(c, r)] else []
           | EmptyString => []
           end.

Definition m_lit (c : ascii) : matcher ascii := m_char (Ascii.eqb c).

(** A literal word under [re.IGNORECASE]. *)
Fixpoint m_word_ci (w : string) : matcher unit :=
  match w with
  | EmptyString => m_ret tt
  | String c w' =>
      m_bind (m_char (fun x => Ascii.eqb (PyStr.lower x) c))
             (fun _ => m_word_ci w')
  end.

Definition in_range (lo hi : ascii) (c : ascii) : bool :=
  (PyStr.code lo <=? PyStr.code c) && (PyStr.code c <=? PyStr.code hi).

(** [\s+], greedy: the longest run first. *)
Fixpoint m_spaces1 (s : string) : list (unit * string) :=
  match s with
  | String c r => if PyStr.isspace c then m_spaces1 r ++ [(tt, r)] else []
  | EmptyString => []
  end.

(** [%d]: [3[0-1]|[1-2]\d|0[1-9]|[1-9]| [1-9]]; the value is
    [int] of the matched text. *)
Definition m_d : matcher Z :=
  let two (p1 p2 : ascii -> bool) : matcher Z :=
    m_bind (m_char p1) (fun a => m_bind (m_char p2) (fun b =>
      m_ret (10 * PyStr.digit_value a + PyStr.digit_value b))) in
  m_alt (two (Ascii.eqb "3") (in_range "0" "1"))
 (m_alt (two (in_range "1" "2") PyStr.isdigit)
 (m_alt (two (Ascii.eqb "0") (in_range "1" "9"))
 (m_alt (m_bind (m_char (in_range "1" "9"))
                (fun a => m_ret (PyStr.digit_value a)))
        (m_bind (m_lit " ") (fun _ =>
         m_bind (m_char (in_range "1" "9"))
                (fun a => m_ret (PyStr.digit_value a))))))).

(** [%y]: [\d\d]; values up to 68 are 20xx, the others 19xx. *)
Definition m_y : matcher Z :=
  m_bind (m_char PyStr.isdigit) (fun a =>
  m_bind (m_char PyStr.isdigit) (fun b =>
    let v := 10 * PyStr.digit_value a + PyStr.digit_value b in
    m_ret (if v <=? 68 then v + 2000 else v + 1900))).

(** [%Y]: [\d\d\d\d]. *)
Definition m_Y : matcher Z :=
  m_bind (m_char PyStr.isdigit) (fun a =>
  m_bind (m_char PyStr.isdigit) (fun b =>
  m_bind (m_char PyStr.isdigit) (fun c =>
  m_bind (m_char PyStr.isdigit) (fun d =>
    m_ret (1000 * PyStr.digit_value a + 100 * PyStr.digit_value b
           + 10 * PyStr.digit_value c + PyStr.digit_value d))))).

(** Abbreviated month names of the C locale. *)
Definition a_month : list string :=
  ["jan"; "feb"; "mar"; "apr"; "may"; "jun";
   "jul"; "aug"; "sep"; "oct"; "nov"; "dec"]%string.

Fixpoint m_names (i : Z) (names : list string) : matcher Z :=
  match names with
  | [] => fun _ => []
  | w :: rest =>
      m_alt (m_bind (m_word_ci w) (fun _ => m_ret i)) (m_names (i + 1) rest)
  end.

(** [%b]: the month number of the matched name. *)
Definition m_b : matcher Z := m_names 1 a_month.

(** [re.match] then the checks of [_strptime]: the first match must
    consume the whole input, and the fields must form a valid date. *)
Definition finish (found : list ((Z * Z * Z) * string)) : option datetime :=
  match found with
  | ((y, m, d), EmptyString) :: _ =>
      if valid_date y m d then Some (mk_datetime y m d) else None
  | _ => None
  end.

(** [datetime.strptime(s, "%b-%y-%d")] *)
Definition strptime_b_y_d (s : string) : option datetime :=
  finish
    (m_bind m_b (fun m =>
     m_bind (m_lit "-") (fun _ =>
     m_bind m_y (fun y =>
     m_bind (m_lit "-") (fun _ =>
     m_bind m_d (fun d => m_ret (y, m, d)))))) s).

(** [datetime.strptime(s, "%d %b %Y")] *)
Definition strptime_d_b_Y (s : string) : option datetime :=
  finish
    (m_bind m_d (fun d =>
     m_bind m_spaces1 (fun _ =>
     m_bind m_b (fun m =>
     m_bind m_spaces1 (fun _ =>
     m_bind m_Y (fun y => m_ret (y, m, d)))))) s).

End Strptime.

(* ===================================================================== *)
(** ** Tables, rows and exceptions *)
(* ===================================================================== *)

(** A cell of a pandas table. *)
Inductive cell :=
| CNaN
| CStr (s : string)
| CInt (n : Z).

Global Instance cell_eq_dec : EqDecision cell.
Proof. solve_decision. Defined.

(** The exceptions the program can meet. *)
Inductive exn :=
| KeyError (k : string)
| AttributeError
| TypeError
| MissingColumns (missing : gset string)   (* the [ValueError] of [validate_dataframe] *)
| IOError.

Inductive result (A : Type) :=
| Ok (a : A)
| Raise (e : exn).
Arguments Ok {A} a.
Arguments Raise {A} e.

Global Instance result_ret : MRet result := fun _ a => Ok a.
Global Instance result_bind : MBind result := fun _ _ f m =>
  match m with Ok a => f a | Raise e => Raise e end.
Global Instance result_fmap : FMap result := fun _ _ f m =>
  match m with Ok a => Ok (f a) | Raise e => Raise e end.

(** A row: [row[col]] is a lookup, [KeyError] when the label is absent. *)
Abbreviation Row := (gmap string cell).

Definition getitem (row : Row) (col : string) : result cell :=
  match row !! col with
  | Some c => Ok c
  | None => Raise (KeyError col)
  end.

Record DataFrame := mk_df { columns : list string; rows : list Row }.

(** [df.apply(f, axis=1)]: [f] on every row, top to bottom; the first
    exception ends the call.  (On a table without rows there is no call
    of [f].) *)
Definition apply_rows {A} (f : Row -> result A) (df : DataFrame) : result (list A) :=
  mapM f (rows df).

(** [df[col] = values] *)
Definition set_column (col : string) (values : list cell) (df : DataFrame) : DataFrame :=
  {| columns := if decide (col ∈ columns df) then columns df else columns df ++ [col];
     rows := zip_with (fun r v => <[col := v]> r) (rows df) values |}.

(** [str(x)] of a cell, as [astype(str)] and string formatting do. *)
Definition cell_str (c : cell) : string :=
  match c with
  | CNaN => "nan"
  | CStr s => s
  | CInt n => PyStr.of_int n
  end.

(* ===================================================================== *)
(** ** The Scorer *)
(* ===================================================================== *)

Definition NO_FLIGHT_FACTOR : Z := 5.
Definition FLIGHT_FACTOR : Z := 5.
Definition DATE_FACTOR : Z := 1.

Definition REQUIRED_COLUMNS : gset string :=
  {[ "Miles"; "Textbox39"; "Textbox25"; "GroupType"; "Joined" ]}.

(** [parse_date]: any exception inside the [try] gives [None]; a cell
    that is not text has no [split]. *)
Definition parse_date (date_str : cell) : option datetime :=
  match date_str with
  | CStr s =>
      if (length (PyStr.split "-" s) =? 2)%nat
      then Strptime.strptime_b_y_d (s +:+ "-01")
      else Strptime.strptime_d_b_Y s
  | _ => None
  end.

(** [not x] for a cell. *)
Definition cell_falsy (c : cell) : bool :=
  match c with
  | CNaN => false
  | CStr s => negb (PyStr.truthy s)
  | CInt n => n =? 0
  end.

Definition calculate_months_since (today : datetime) (date_str : cell) : Z :=
  if cell_falsy date_str then 0
  else match parse_date date_str with
       | None => 0
       | Some parsed_date =>
           let months := (year today - year parsed_date) * 12
                         + (month today - month parsed_date) in
           Z.max 0 months
       end.

Definition column_mapping : list (string * string) :=
  [ ("Miles", "18+"); ("Textbox39", "Wing"); ("Textbox25", "Unit");
    ("Textbox130", "glider_1"); ("Textbox131", "glider_2");
    ("Textbox132", "glider_3"); ("Textbox133", "glider_4");
    ("Textbox134", "glider_5"); ("Textbox135", "powered_1");
    ("Textbox136", "powered_2"); ("Textbox137", "powered_3");
    ("Textbox138", "powered_4"); ("Textbox139", "powered_5") ].

(** [df.rename(columns=column_mapping)]: labels outside the mapping stay.
    Rows have unique labels here; a table holding an old name next to
    its new name is outside the embedding. *)
Definition rename_label (c : string) : string :=
  default c ((list_to_map column_mapping : gmap string string) !! c).

Definition rename_columns (df : DataFrame) : DataFrame :=
  {| columns := List.map rename_label (columns df);
     rows := List.map (kmap (M2 := gmap string) rename_label) (rows df) |}.

(** [f'powered_{i}'] *)
Definition powered_col (i : Z) : string := "powered_" +:+ PyStr.of_int i.

(** [pd.notna(c) and c.strip()], as a truth value. *)
Definition nonblank (c : cell) : result bool :=
  match c with
  | CNaN => Ok false
  | CStr s => Ok (PyStr.truthy (PyStr.strip s))
  | CInt _ => Raise AttributeError
  end.

(** The loop of [find_last_powered_date] over the ordinals still to visit. *)
Fixpoint find_last_powered_loop (row : Row) (ordinals : list Z) : result cell :=
  match ordinals with
  | [] => getitem row "Joined"
  | i :: rest =>
      c ← getitem row (powered_col i);
      b ← nonblank c;
      if b : bool then Ok c else find_last_powered_loop row rest
  end.

Definition find_last_powered_date (row : Row) : result cell :=
  find_last_powered_loop row [5; 4; 3; 2; 1].

Fixpoint count_powered_loop (row : Row) (ordinals : list Z) (count : Z) : result Z :=
  match ordinals with
  | [] => Ok count
  | i :: rest =>
      c ← getitem row (powered_col i);
      b ← nonblank c;
      count_powered_loop row rest (if b : bool then count + 1 else count)
  end.

Definition count_powered_flights (row : Row) : result Z :=
  count_powered_loop row [1; 2; 3; 4; 5] 0.

(** Integer arithmetic on cells; NaN is a float and absorbs. *)
Definition cell_arith (f : Z -> Z) (c : cell) : result cell :=
  match c with
  | CInt n => Ok (CInt (f n))
  | CNaN => Ok CNaN
  | CStr _ => Raise TypeError
  end.

Definition calculate_flight_points (row : Row) : result cell :=
  g ← getitem row "GroupType";
  if decide (g = CStr "No O-Flights")
  then pc ← getitem row "powered_count";
       cell_arith (fun n => (5 - n) * FLIGHT_FACTOR + NO_FLIGHT_FACTOR) pc
  else pc ← getitem row "powered_count";
       cell_arith (fun n => (5 - n) * FLIGHT_FACTOR) pc.

Definition calculate_date_points (today : datetime) (last_powered : cell) : Z :=
  let months := calculate_months_since today last_powered in
  months * DATE_FACTOR.

(** [a + b] on cells. *)
Definition cell_add (a b : cell) : result cell :=
  match a, b with
  | CInt x, CInt y => Ok (CInt (x + y))
  | CStr x, CStr y => Ok (CStr (x +:+ y))
  | CNaN, CStr _ | CStr _, CNaN | CInt _, CStr _ | CStr _, CInt _ => Raise TypeError
  | _, _ => Ok CNaN
  end.

Definition calculate_total_points (row : Row) : result cell :=
  fp ← getitem row "flight_points";
  dp ← getitem row "date_points";
  cell_add fp dp.

Definition validate_dataframe (df : DataFrame) : result unit :=
  let missing_columns := REQUIRED_COLUMNS ∖ list_to_set (columns df) in
  if decide (missing_columns = ∅) then Ok tt
  else Raise (MissingColumns missing_columns).

(** [df[col]]: the column as a list, [KeyError] when there is no such
    column. *)
Definition get_column (col : string) (df : DataFrame) : result (list cell) :=
  if decide (col ∈ columns df)
  then mapM (fun r => getitem r col) (rows df)
  else Raise (KeyError col).

(* ===================================================================== *)
(** ** Ranking: [sort_values(by, ascending=False)] *)
(* ===================================================================== *)

(** A sort key: a number, or NaN ([None]).  Text keys are outside the
    embedding and reported as [TypeError]. *)
Definition sort_key (c : cell) : result (option Z) :=
  match c with
  | CInt n => Ok (Some n)
  | CNaN => Ok None
  | CStr _ => Raise TypeError
  end.

(** Fancy indexing [a[indexer]]. *)
Definition take_by {A} (indexer : list nat) (a : list A) : list A :=
  omap (fun i => a !! i) indexer.

(** Positions of [items] whose entry satisfies [p], in increasing order. *)
Fixpoint positions {A} (p : A -> bool) (start : nat) (items : list A) : list nat :=
  match items with
  | [] => []
  | x :: rest =>
      if p x then start :: positions p (S start) rest
      else positions p (S start) rest
  end.

(** [~mask] and [mask] of [nargsort], where [mask = isna(items)]. *)
Definition notnan (k : option Z) : bool :=
  match k with Some _ => true | None => false end.
Definition isnan (k : option Z) : bool := negb (notnan k).

Section Ranking.

(** [numpy.argsort] on integer keys with the [kind] that [sort_values]
    hands down.  Both calls in [oflight.py] leave [kind] at its default,
    ['quicksort']. *)
Variable argsort : list Z -> list nat.

(** pandas' [nargsort] with [ascending=False], [na_position='last']:
    reverse, sort ascending, reverse again, NaN rows last. *)
Definition nargsort_desc (items : list (option Z)) : list nat :=
  let non_nans := omap id items in
  let non_nan_idx := positions notnan 0 items in
  let nan_idx := positions isnan 0 items in
  let non_nans := reverse non_nans in
  let non_nan_idx := reverse non_nan_idx in
  let indexer := take_by (argsort non_nans) non_nan_idx in
  let indexer := reverse indexer in
  indexer ++ nan_idx.

Definition sort_values_desc (by_ : string) (df : DataFrame) : result DataFrame :=
  cells ← get_column by_ df;
  keys ← mapM sort_key cells;
  Ok {| columns := columns df;
        rows := take_by (nargsort_desc keys) (rows df) |}.

(** The table of [process_data] before the final sort. *)
Definition score_data (today : datetime) (df : DataFrame) : result DataFrame :=
  _ ← validate_dataframe df;
  let df := rename_columns df in
  pc ← apply_rows count_powered_flights df;
  let df := set_column "powered_count" (CInt <$> pc) df in
  lp ← apply_rows find_last_powered_date df;
  let df := set_column "last_powered" lp df in
  fp ← apply_rows calculate_flight_points df;
  let df := set_column "flight_points" fp df in
  lp ← get_column "last_powered" df;
  let df := set_column "date_points"
              (CInt <$> (calculate_date_points today <$> lp)) df in
  tp ← apply_rows calculate_total_points df;
  Ok (set_column "total_points" tp df).

Definition process_data (today : datetime) (df : DataFrame) : result DataFrame :=
  df ← score_data today df;
  sort_values_desc "total_points" df.

End Ranking.

(* ===================================================================== *)
(** ** The Slotter *)
(* ===================================================================== *)

(** What iterating over the opened file yields: a line, or a failure of
    the read. *)
Inductive read_event :=
| Line (line : string)
| ReadFailure.

(** A file to read: [None] when [open] raises. *)
Definition text_file := option (list read_event).

(** The loop of [read_cadet_list], with its two accumulators. *)
Fixpoint read_cadet_loop (events : list read_event)
    (cap_ids : list string) (seen : gset string) : result (list string) :=
  match events with
  | [] => Ok cap_ids
  | ReadFailure :: _ => Raise IOError
  | Line line :: rest =>
      let cap_id := PyStr.strip line in
      if PyStr.truthy cap_id && bool_decide (cap_id ∉ seen)
      then read_cadet_loop rest (cap_ids ++ [cap_id]) ({[cap_id]} ∪ seen)
      else read_cadet_loop rest cap_ids seen
  end.

Definition read_cadet_list (f : text_file) : list string :=
  match f with
  | None => []
  | Some events =>
      match read_cadet_loop events [] ∅ with
      | Ok cap_ids => cap_ids
      | Raise _ => []
      end
  end.

(** [datetime.strptime(s, "%b-%y")]: the day defaults to 1. *)
Definition strptime_b_y (s : string) : option datetime :=
  Strptime.finish
    (Strptime.m_bind Strptime.m_b (fun m =>
     Strptime.m_bind (Strptime.m_lit "-") (fun _ =>
     Strptime.m_bind Strptime.m_y (fun y => Strptime.m_ret (y, m, 1)))) s).

Definition month_abbr : list string :=
  ["Jan"; "Feb"; "Mar"; "Apr"; "May"; "Jun";
   "Jul"; "Aug"; "Sep"; "Oct"; "Nov"; "Dec"]%string.

(** [s.rjust(width)] and [s.ljust(width)] with a fill character. *)
Fixpoint replicate_char (n : nat) (c : ascii) : string :=
  match n with O => EmptyString | S n' => String c (replicate_char n' c) end.
Definition rjust (fill : ascii) (width : nat) (s : string) : string :=
  replicate_char (width - String.length s) fill +:+ s.
Definition ljust (fill : ascii) (width : nat) (s : string) : string :=
  s +:+ replicate_char (width - String.length s) fill.

(** [date.strftime("%b-%y")] *)
Definition strftime_b_y (d : datetime) : string :=
  nth (Z.to_nat (month d - 1)) month_abbr EmptyString +:+ "-"
  +:+ rjust "0" 2 (PyStr.of_int (year d mod 100)).

Fixpoint format_last_flight_loop (row : Row) (ordinals : list Z) : result string :=
  match ordinals with
  | [] => Ok EmptyString
  | i :: rest =>
      c ← getitem row (powered_col i);
      b ← nonblank c;
      if b : bool
      then match c with
           | CStr s => match strptime_b_y s with
                       | Some date => Ok (strftime_b_y date)
                       | None => Ok s
                       end
           | _ => Raise TypeError
           end
      else format_last_flight_loop row rest
  end.

Definition format_last_flight (row : Row) : result string :=
  pc ← getitem row "powered_count";
  if decide (pc = CInt 0) then Ok EmptyString
  else format_last_flight_loop row [5; 4; 3; 2; 1].

(** One row of the report, before it is laid out in fixed-width text. *)
Record entry := mk_entry {
  e_index : Z;
  e_capid : cell;
  e_name : cell;
  e_points : cell;
  e_next : cell;
  e_last : string
}.

(** One [f.write] call. *)
Inductive chunk :=
| W_title (blank_line_before : bool) (title : string)
| W_rule (n : nat)
| W_header
| W_entry (e : entry)
| W_id (cap_id : string).

Global Instance entry_eq_dec : EqDecision entry.
Proof. solve_decision. Defined.

Global Instance chunk_eq_dec : EqDecision chunk.
Proof. solve_decision. Defined.

Definition newline : string := String (ascii_of_nat 10) EmptyString.

Definition render_chunk (c : chunk) : string :=
  match c with
  | W_title b t => (if b then newline else EmptyString) +:+ t +:+ newline
  | W_rule n => replicate_char n "=" +:+ newline
  | W_header =>
      rjust " " 3 "#" +:+ "  " +:+ ljust " " 8 "CAPID" +:+ " "
      +:+ ljust " " 30 "Name" +:+ " " +:+ rjust " " 3 "Points" +:+ "  "
      +:+ rjust " " 4 "Next" +:+ "  " +:+ ljust " " 8 "Last Flight" +:+ newline
  | W_entry e =>
      rjust " " 3 (PyStr.of_int (e_index e)) +:+ "  "
      +:+ ljust " " 8 (cell_str (e_capid e)) +:+ " "
      +:+ ljust " " 30 (cell_str (e_name e)) +:+ " "
      +:+ rjust " " 3 (cell_str (e_points e)) +:+ "     "
      +:+ rjust " " 1 (cell_str (e_next e)) +:+ "       "
      +:+ ljust " " 8 (e_last e) +:+ newline
  | W_id cap_id => cap_id +:+ newline
  end.

(** The body of the row loops of [write_slotting_results]. *)
Definition make_entry (i : Z) (row : Row) : result entry :=
  pc ← getitem row "powered_count";
  next_flight ← cell_arith (fun n => n + 1) pc;
  last_flight ← format_last_flight row;
  capid ← getitem row "CAPID";
  name ← getitem row "FullName";
  points ← getitem row "total_points";
  Ok (mk_entry i capid name points next_flight last_flight).

(** What has been written, and the exception that stopped the writing,
    if any (it is caught and printed; the file keeps what was written). *)
Definition written := (list chunk * option exn)%type.

Definition and_then (a b : written) : written :=
  match a with
  | (cs, None) => (cs ++ b.1, b.2)
  | (cs, Some e) => (cs, Some e)
  end.

(** [for i, (_, row) in enumerate(rows, start): f.write(...)] *)
Fixpoint write_entries (start : Z) (rws : list Row) : written :=
  match rws with
  | [] => ([], None)
  | row :: rest =>
      match make_entry start row with
      | Ok e => and_then ([W_entry e], None) (write_entries (start + 1) rest)
      | Raise x => ([], Some x)
      end
  end.

(** [df.head(n)]: for a negative [n], all but the last [-n] rows. *)
Definition df_head {A} (n : Z) (l : list A) : list A :=
  if 0 <=? n then take (Z.to_nat n) l
  else take (length l - Z.to_nat (- n)) l.

(** [df.iloc[n:]]: for a negative [n], the last [-n] rows. *)
Definition iloc_from {A} (n : Z) (l : list A) : list A :=
  if 0 <=? n then drop (Z.to_nat n) l
  else drop (length l - Z.to_nat (- n)) l.

(** The two layouts of the report. *)
Definition write_split (n : Z) (rws : list Row) : written :=
  and_then ([W_title false "Primary Slots:"; W_rule 70; W_header], None)
 (and_then (write_entries 1 (df_head n rws))
 (and_then ([W_title true "Alternates:"; W_rule 70; W_header], None)
           (write_entries (n + 1) (iloc_from n rws)))).

Definition write_single (rws : list Row) : written :=
  and_then ([W_title false "Cadets sorted by total points:"; W_rule 70; W_header], None)
           (write_entries 1 rws).

Definition write_unmatched (unmatched_ids : list string) : written :=
  match unmatched_ids with
  | [] => ([], None)
  | _ => ([W_title true "Unmatched CAP IDs:"; W_rule 20] ++ (W_id <$> unmatched_ids), None)
  end.

(** [slot_count and len(sorted_df) > slot_count] *)
Definition splits (slot_count : option Z) (rws : list Row) : bool :=
  match slot_count with
  | None => false
  | Some n => negb (n =? 0) && (n <? Z.of_nat (length rws))
  end.

Definition write_slotting_results (sorted_df : DataFrame)
    (unmatched_ids : list string) (slot_count : option Z) : written :=
  and_then
    (match slot_count with
     | Some n =>
         if splits slot_count (rows sorted_df)
         then write_split n (rows sorted_df)
         else write_single (rows sorted_df)
     | None => write_single (rows sorted_df)
     end)
    (write_unmatched unmatched_ids).

(** The CAPID of a row after [astype(str)]. *)
Definition capid_of (row : Row) : option string :=
  match row !! "CAPID" with
  | Some (CStr s) => Some s
  | _ => None
  end.

(** [df['CAPID'].isin(cap_ids)] on one row. *)
Definition isin_capid (cap_ids : list string) (row : Row) : bool :=
  match row !! "CAPID" with
  | Some (CStr s) => bool_decide (s ∈ cap_ids)
  | _ => false
  end.

(** The result of [slots_command] before it is written out. *)
Record slotting := mk_slotting {
  s_filtered : DataFrame;
  s_sorted : DataFrame;
  s_unmatched : list string
}.

Section Slotter.

Variable argsort : list Z -> list nat.

(** [slots_command] from the two inputs already read, up to the call
    of [write_slotting_results]. *)
Definition slot_assignment (cap_ids : list string) (df : DataFrame) : result slotting :=
  capid ← get_column "CAPID" df;
  let df := set_column "CAPID" (CStr <$> (cell_str <$> capid)) df in
  let filtered_df :=
    {| columns := columns df;
       rows := List.filter (isin_capid cap_ids) (rows df) |} in
  sorted_df ← sort_values_desc argsort "total_points" filtered_df;
  let matched_ids : gset string := list_to_set (omap capid_of (rows filtered_df)) in
  let unmatched_ids :=
    List.filter (fun id => bool_decide (id ∉ matched_ids)) cap_ids in
  Ok (mk_slotting filtered_df sorted_df unmatched_ids).

(** [slots_command]: [cadet_list] is the file ["cadet_list.txt"],
    [points_csv] what [pd.read_csv("oflight_points.csv")] returns or
    raises. *)
Definition slots_command (cadet_list : text_file) (points_csv : result DataFrame)
    (slot_count : option Z) : result written :=
  let cap_ids := read_cadet_list cadet_list in
  df ← points_csv;
  s ← slot_assignment cap_ids df;
  Ok (write_slotting_results (s_sorted s) (s_unmatched s) slot_count).

End Slotter.

(* ===================================================================== *)
(** ** Sorting algorithms behind [argsort] *)
(* ===================================================================== *)

(** What [numpy.argsort] promises for every [kind]: the result lists the
    positions of the keys, each once, and the keys read in that order
    ascend.  Only [kind='stable'] (or ['mergesort']) promises more. *)
Record argsort_spec (argsort : list Z -> list nat) : Prop := {
  argsort_perm : forall ks, argsort ks ≡ₚ seq 0 (length ks);
  argsort_sorted : forall ks, Sorted Z.le (take_by (argsort ks) ks)
}.

(** numpy's scalar argsort for [kind='quicksort'] ([aquicksort_] and
    [aheapsort_] of [npysort]): an introsort on the index array [ts],
    comparing through the keys [v].  Loops carry a fuel; [None] means the
    fuel ran out. *)
Module Npysort.

Definition SMALL_QUICKSORT : Z := 16.

(** [tosort[p]] and [v[tosort[p]]] *)
Definition at_ (ts : list nat) (p : Z) : nat := nth (Z.to_nat p) ts O.
Definition key (v : list Z) (ts : list nat) (p : Z) : Z := nth (at_ ts p) v 0.
Definition put (ts : list nat) (p : Z) (x : nat) : list nat := <[Z.to_nat p := x]> ts.

(** [INTP_SWAP(ts[i], ts[j])] *)
Definition swap (ts : list nat) (i j : Z) : list nat :=
  put (put ts i (at_ ts j)) j (at_ ts i).

Definition swap_if (b : bool) (ts : list nat) (i j : Z) : list nat :=
  if b then swap ts i j else ts.

(** [do { ++pi; } while (v[*pi] < vp);] *)
Fixpoint scan_up (fuel : nat) (v : list Z) (ts : list nat) (vp pi : Z) : option Z :=
  match fuel with
  | O => None
  | S f => let pi := pi + 1 in
           if key v ts pi <? vp then scan_up f v ts vp pi else Some pi
  end.

(** [do { --pj; } while (vp < v[*pj]);] *)
Fixpoint scan_down (fuel : nat) (v : list Z) (ts : list nat) (vp pj : Z) : option Z :=
  match fuel with
  | O => None
  | S f => let pj := pj - 1 in
           if vp <? key v ts pj then scan_down f v ts vp pj else Some pj
  end.

(** The [for (;;)] loop of the partition; returns the array and [pi]. *)
Fixpoint partition_loop (fuel : nat) (v : list Z) (ts : list nat) (vp pi pj : Z)
    : option (list nat * Z) :=
  match fuel with
  | O => None
  | S f =>
      pi ← scan_up (S (length ts)) v ts vp pi;
      pj ← scan_down (S (length ts)) v ts vp pj;
      if pj <=? pi then Some (ts, pi)
      else partition_loop f v (swap ts pi pj) vp pi pj
  end.

(** One pass of the body of [while ((pr - pl) > SMALL_QUICKSORT)]:
    median of three, partition, pivot back in place. *)
Definition partition (v : list Z) (ts : list nat) (pl pr : Z) : option (list nat * Z) :=
  let pm := pl + Z.shiftr (pr - pl) 1 in
  let ts := swap_if (key v ts pm <? key v ts pl) ts pm pl in
  let ts := swap_if (key v ts pr <? key v ts pm) ts pr pm in
  let ts := swap_if (key v ts pm <? key v ts pl) ts pm pl in
  let vp := key v ts pm in
  let pi := pl in
  let pj := pr - 1 in
  let ts := swap ts pm pj in
  '(ts, pi) ← partition_loop (S (length ts)) v ts vp pi pj;
  let pk := pr - 1 in
  Some (swap ts pi pk, pi).

(** [while (pj > pl && vp < v[*pk]) { *pj-- = *pk--; }] *)
Fixpoint shift_right (fuel : nat) (v : list Z) (ts : list nat) (pl vp pj : Z)
    : list nat * Z :=
  match fuel with
  | O => (ts, pj)
  | S f =>
      if (pl <? pj) && (vp <? key v ts (pj - 1))
      then shift_right f v (put ts pj (at_ ts (pj - 1))) pl vp (pj - 1)
      else (ts, pj)
  end.

(** The insertion sort of [ts[pl..pr]], [pi] running from [pl + 1]. *)
Fixpoint insertion (fuel : nat) (v : list Z) (ts : list nat) (pl pr pi : Z) : list nat :=
  match fuel with
  | O => ts
  | S f =>
      if pi <=? pr then
        let vi := at_ ts pi in
        let vp := nth vi v 0 in
        let '(ts, pj) := shift_right (length ts) v ts pl vp pi in
        insertion f v (put ts pj vi) pl pr (pi + 1)
      else ts
  end.

(** [aheapsort_] on the [n] entries from [pl]; [a] is the array seen
    from one place before [pl], so [a[i]] is [ts[pl + i - 1]]. *)
Section Heap.
Variables (v : list Z) (pl : Z).
Definition a_get (ts : list nat) (i : Z) : nat := at_ ts (pl + i - 1).
Definition a_put (ts : list nat) (i : Z) (x : nat) : list nat := put ts (pl + i - 1) x.
Definition a_key (ts : list nat) (i : Z) : Z := nth (a_get ts i) v 0.

(** [for (i = .., j = ..; j <= n;) { ... }] followed by [a[i] = tmp] *)
Fixpoint sift (fuel : nat) (ts : list nat) (n : Z) (tmp : nat) (i j : Z) : list nat :=
  match fuel with
  | O => a_put ts i tmp
  | S f =>
      if j <=? n then
        let j := if (j <? n) && (a_key ts j <? a_key ts (j + 1)) then j + 1 else j in
        if nth tmp v 0 <? a_key ts j
        then sift f (a_put ts i (a_get ts j)) n tmp j (j + j)
        else a_put ts i tmp
      else a_put ts i tmp
  end.

(** [for (l = n >> 1; l > 0; --l)] *)
Fixpoint heapify (fuel : nat) (ts : list nat) (n l : Z) : list nat :=
  match fuel with
  | O => ts
  | S f =>
      if 0 <? l
      then heapify f (sift (length ts) ts n (a_get ts l) l (Z.shiftl l 1)) n (l - 1)
      else ts
  end.

(** [for (; n > 1;)] *)
Fixpoint pop_all (fuel : nat) (ts : list nat) (n : Z) : list nat :=
  match fuel with
  | O => ts
  | S f =>
      if 1 <? n then
        let tmp := a_get ts n in
        let ts := a_put ts n (a_get ts 1) in
        let n := n - 1 in
        pop_all f (sift (length ts) ts n tmp 1 2) n
      else ts
  end.

Definition aheapsort (ts : list nat) (n : Z) : list nat :=
  pop_all (S (length ts)) (heapify (S (length ts)) ts n (Z.shiftr n 1)) n.
End Heap.

(** The inner [while]: partition, push the larger part, go on with the
    smaller one.  Returns the array, the part left to sort, the depth and
    the stack. *)
Fixpoint quick_inner (fuel : nat) (v : list Z) (ts : list nat) (pl pr cdepth : Z)
    (stack : list (Z * Z * Z)) : option (list nat * Z * Z * list (Z * Z * Z)) :=
  match fuel with
  | O => None
  | S f =>
      if SMALL_QUICKSORT <? pr - pl then
        '(ts, pi) ← partition v ts pl pr;
        let cdepth := cdepth - 1 in
        if pi - pl <? pr - pi
        then quick_inner f v ts pl (pi - 1) cdepth ((pi + 1, pr, cdepth) :: stack)
        else quick_inner f v ts (pi + 1) pr cdepth ((pl, pi - 1, cdepth) :: stack)
      else Some (ts, pl, pr, stack)
  end.

(** The outer [while (1)]. *)
Fixpoint quick_outer (fuel : nat) (v : list Z) (ts : list nat) (pl pr cdepth : Z)
    (stack : list (Z * Z * Z)) : option (list nat) :=
  match fuel with
  | O => None
  | S f =>
      sorted_part ←
        (if cdepth <? 0 then Some (aheapsort v pl ts (pr - pl + 1), stack)
         else
           '(ts, pl, pr, stack) ← quick_inner (S (length ts)) v ts pl pr cdepth stack;
           Some (insertion (S (length ts)) v ts pl pr (pl + 1), stack));
      let '(ts, stack) := sorted_part in
      match stack with
      | [] => Some ts
      | (pl, pr, cdepth) :: stack => quick_outer f v ts pl pr cdepth stack
      end
  end.

(** [npy_get_msb(num) * 2] *)
Definition depth_limit (num : Z) : Z := Z.log2 num * 2.

Definition aquicksort (v : list Z) : option (list nat) :=
  let num := Z.of_nat (length v) in
  quick_outer (S (2 * length v)) v (seq 0 (length v)) 0 (num - 1) (depth_limit num) [].

(** As a total function (the empty answer stands for exhausted fuel). *)
Definition argsort (v : list Z) : list nat := default [] (aquicksort v).

End Npysort.

(** Another argsort: the library's merge sort on the pairs of position
    and key, compared by key. *)
Module KeyOrder <: Orders.TotalLeBool.
Definition t := (nat * Z)%type.
Definition leb (x y : t) : bool := x.2 <=? y.2.
Theorem leb_total : forall x y, leb x y = true \/ leb y x = true.
Proof. intros x y. unfold leb. lia. Qed.
End KeyOrder.

Module KeySort := Mergesort.Sort KeyOrder.

Definition merge_argsort (ks : list Z) : list nat :=
  (KeySort.sort (zip (seq 0 (length ks)) ks)).*1.

(* ===================================================================== *)
(** ** Spec-level notions used in the statements *)
(* ===================================================================== *)

(** Whitespace-only (or empty) text. *)
Fixpoint all_space (s : string) : bool :=
  match s with
  | EmptyString => true
  | String c r => PyStr.isspace c && all_space r
  end.

(** A blank slot: missing, empty, or whitespace-only. *)
Definition blank (c : cell) : Prop :=
  c = CNaN \/ exists s, c = CStr s /\ all_space s = true.

(** A non-empty text. *)
Definition nonempty (c : cell) : Prop :=
  exists s, c = CStr s /\ s <> EmptyString.

(** A slot as the report delivers it: text or missing. *)
Definition textual (c : cell) : Prop :=
  match c with CInt _ => False | _ => True end.

(** How often a character occurs in a text. *)
Fixpoint count_char (c : ascii) (s : string) : nat :=
  match s with
  | EmptyString => O
  | String a r => if Ascii.eqb a c then S (count_char c r) else count_char c r
  end.

(** [astype(str)] on the CAPID of one row. *)
Definition astype_str_row (row : Row) : Row :=
  match row !! "CAPID" with
  | Some c => <["CAPID" := CStr (cell_str c)]> row
  | None => row
  end.

(** The required columns a table lacks. *)
Definition missing_of (df : DataFrame) : gset string :=
  REQUIRED_COLUMNS ∖ list_to_set (columns df).

(** [s] is [n] characters followed by [r]. *)
Fixpoint chars_before (n : nat) (s r : string) : Prop :=
  match n with
  | O => s = r
  | S n' => exists c s', s = String c s' /\ chars_before n' s' r
  end.




(** The total of a row as a sort key. *)
Definition total_of (row : Row) : option Z :=
  match row !! "total_points" with
  | Some (CInt n) => Some n
  | _ => None
  end.

(** [a] may stand before [b] in a descending ranking with NaN last. *)
Definition ranks_before (a b : option Z) : Prop :=
  match a, b with
  | Some x, Some y => y <= x
  | None, Some _ => False
  | _, None => True
  end.

(* ===================================================================== *)
(** ** Sample data *)
(* ===================================================================== *)

Definition sample_row (capid : Z) (name group joined : string)
    (p1 p2 p3 p4 p5 : cell) : Row :=
  list_to_map
    [ ("CAPID", CInt capid); ("FullName", CStr name);
      ("Miles", CInt 12); ("Textbox39", CStr "WI"); ("Textbox25", CStr "WI-001");
      ("GroupType", CStr group); ("Joined", CStr joined);
      ("Textbox135", p1); ("Textbox136", p2); ("Textbox137", p3);
      ("Textbox138", p4); ("Textbox139", p5) ].

Definition sample_columns : list string :=
  [ "CAPID"; "FullName"; "Miles"; "Textbox39"; "Textbox25"; "GroupType"; "Joined";
    "Textbox135"; "Textbox136"; "Textbox137"; "Textbox138"; "Textbox139" ].

Definition sample_report : DataFrame :=
  {| columns := sample_columns;
     rows := [ sample_row 100 "Adams" "Has Flights" "01 Jan 2022"
                 (CStr "Jan-23") (CStr "Mar-23") (CStr "09 Mar 2023") CNaN CNaN;
               sample_row 200 "Baker" "No O-Flights" "15 Jun 2023"
                 CNaN CNaN CNaN CNaN CNaN;
               sample_row 300 "Clark" "Has Flights" "01 Feb 2021"
                 (CStr "Feb-22") (CStr "  ") CNaN CNaN CNaN ] |}.

(** A row of the renamed table with the given powered slots and joined
    date. *)
Definition powered_row (p1 p2 p3 p4 p5 joined : cell) : Row :=
  list_to_map
    [ ("CAPID", CInt 100); ("FullName", CStr "Adams");
      ("GroupType", CStr "Has Flights"); ("Joined", joined);
      ("powered_1", p1); ("powered_2", p2); ("powered_3", p3);
      ("powered_4", p4); ("powered_5", p5) ].

(** A scored row as [slots_command] reads it back. *)
Definition scored_row (capid : cell) (name : string) (total : Z) : Row :=
  list_to_map
    [ ("CAPID", capid); ("FullName", CStr name); ("powered_count", CInt 0);
      ("powered_1", CNaN); ("powered_2", CNaN); ("powered_3", CNaN);
      ("powered_4", CNaN); ("powered_5", CNaN); ("total_points", CInt total) ].

Definition scored_columns : list string :=
  [ "CAPID"; "FullName"; "powered_count"; "powered_1"; "powered_2"; "powered_3";
    "powered_4"; "powered_5"; "total_points" ].

(** Identifiers as text (some column entry is not a number, so the
    column stays text) and as numbers. *)
Definition scored_text_ids : DataFrame :=
  {| columns := scored_columns;
     rows := [ scored_row (CStr "0100") "Adams" 30;
               scored_row (CStr "100") "Baker" 20;
               scored_row (CStr "A7") "Clark" 10 ] |}.

Definition scored_int_ids : DataFrame :=
  {| columns := scored_columns;
     rows := [ scored_row (CInt 100) "Adams" 30;
               scored_row (CInt 300) "Clark" 10 ] |}.

(** Modelled from pandas: [pd.read_csv] infers the type of a column from
    its fields.  Only the case the identifiers need is modelled: a column
    whose fields are all one to eighteen decimal digits is read as
    integers, leading zeros dropped; [None] stands for any other column. *)
Fixpoint int_of_digits (acc : Z) (s : string) : option Z :=
  match s with
  | EmptyString => Some acc
  | String c r =>
      if PyStr.isdigit c then int_of_digits (10 * acc + PyStr.digit_value c) r
      else None
  end.

Definition read_digits (s : string) : option Z :=
  if (1 <=? String.length s)%nat && (String.length s <=? 18)%nat
  then int_of_digits 0 s else None.

Definition read_csv_digit_column (fields : list string) : option (list cell) :=
  fmap CInt <$> mapM read_digits fields.

(** A scored table read back from identifiers written as [fields]. *)
Definition scored_from_fields (fields : list string) : DataFrame :=
  {| columns := scored_columns;
     rows := (fun c => scored_row c "Cadet" 20)
             <$> default [] (read_csv_digit_column fields) |}.


(** The candidate list ["100"; "200"; "100"; "300"] as a file. *)
Definition sample_cadet_list : text_file :=
  Some [Line "100"; Line "200"; Line "100"; Line "300"].

Definition dummy_slotting : slotting :=
  mk_slotting (mk_df [] []) (mk_df [] []) [].

Definition slotting_of (r : result slotting) : slotting :=
  match r with Ok s => s | Raise _ => dummy_slotting end.

(** Eighteen cadets with the same history, hence the same total. *)
Definition tied_report : DataFrame :=
  {| columns := sample_columns;
     rows := (fun i => sample_row i "Cadet" "Has Flights" "01 Jan 2023"
                         (CStr "Mar-23") CNaN CNaN CNaN CNaN) <$> seqZ 1 18 |}.


Definition capids (df : DataFrame) : list cell :=
  (fun r => default CNaN (r !! "CAPID")) <$> rows df.

Definition frame_of (r : result DataFrame) : DataFrame :=
  match r with Ok df => df | Raise _ => mk_df [] [] end.

(** A table with the five validated columns and nothing else, and one
    without the joined date and the unit. *)
Definition only_required : DataFrame :=
  {| columns := ["Miles"; "Textbox39"; "Textbox25"; "GroupType"; "Joined"];
     rows := [ list_to_map [ ("Miles", CInt 12); ("Textbox39", CStr "WI");
                             ("Textbox25", CStr "WI-001");
                             ("GroupType", CStr "Has Flights");
                             ("Joined", CStr "01 Jan 2022") ] ] |}.

Definition no_joined : DataFrame :=
  {| columns := ["Miles"; "Textbox39"; "GroupType"]; rows := [] |}.

Definition sample_today : datetime := mk_datetime 2023 9 9.

(* ===================================================================== *)
(** ** Proof tools *)
(* ===================================================================== *)

(** One step of comparing [s +:+ suffix] with an explicit text. *)
Ltac peel s E :=
  destruct s as [|? s];
  [ change (EmptyString +:+ ?t) with t in E
  | change (String ?c ?r +:+ ?t) with (String c (r +:+ t)) in E;
    first [ discriminate E | injection E as ? E ] ].

(* ===================================================================== *)
(** ** Further notions for the properties of the remaining code *)
(* ===================================================================== *)

(** The legacy and the new column names of [column_mapping]. *)
Definition legacy_names : list string := column_mapping.*1.
Definition new_names : list string := column_mapping.*2.

(** A row as the raw report delivers it carries none of the new names. *)
Definition raw_row (row : Row) : Prop :=
  forall c, c ∈ new_names -> row !! c = None.

(** [bool] of "the slot is not blank", for text and missing values. *)
Definition filled (c : cell) : bool :=
  match c with
  | CStr s => negb (all_space s)
  | _ => false
  end.

(** The five steps of [process_data] seen from one row of the renamed
    table: what each [apply] and each column assignment does to it. *)
Definition score_renamed_row (today : datetime) (r : Row) : result Row :=
  n ← count_powered_flights r;
  let r := <["powered_count" := CInt n]> r in
  lp ← find_last_powered_date r;
  let r := <["last_powered" := lp]> r in
  fp ← calculate_flight_points r;
  let r := <["flight_points" := fp]> r in
  lp ← getitem r "last_powered";
  let r := <["date_points" := CInt (calculate_date_points today lp)]> r in
  tp ← calculate_total_points r;
  Ok (<["total_points" := tp]> r).

Definition score_row (today : datetime) (row : Row) : result Row :=
  score_renamed_row today (kmap rename_label row).

(** What is left of the steps after each column assignment. *)
Definition after_date (r : Row) : result Row :=
  tp ← calculate_total_points r;
  Ok (<["total_points" := tp]> r).

Definition after_flight (today : datetime) (r : Row) : result Row :=
  lp ← getitem r "last_powered";
  after_date (<["date_points" := CInt (calculate_date_points today lp)]> r).

Definition after_last (today : datetime) (r : Row) : result Row :=
  fp ← calculate_flight_points r;
  after_flight today (<["flight_points" := fp]> r).

Definition after_count (today : datetime) (r : Row) : result Row :=
  lp ← find_last_powered_date r;
  after_last today (<["last_powered" := lp]> r).

(** The columns of the scored table: the renamed ones, then the derived
    ones that are not there yet. *)
Definition add_column (cols : list string) (col : string) : list string :=
  if decide (col ∈ cols) then cols else cols ++ [col].

Definition derived_columns : list string :=
  ["powered_count"; "last_powered"; "flight_points"; "date_points"; "total_points"].

Definition scored_columns_of (df : DataFrame) : list string :=
  foldl add_column (List.map rename_label (columns df)) derived_columns.


(** The legacy name of the [i]-th powered slot: Textbox135 .. Textbox139. *)
Definition legacy_powered (i : Z) : string := "Textbox" +:+ PyStr.of_int (134 + i).

(** The slots of a record in scan order, given as a function of the
    ordinal. *)
Definition slots_up (p : Z -> cell) : list cell := p <$> [1; 2; 3; 4; 5].
Definition slots_down (p : Z -> cell) : list cell := p <$> [5; 4; 3; 2; 1].

(** The number of filled slots, and the last filled slot or else [j]. *)
Definition filled_count (p : Z -> cell) : Z :=
  Z.of_nat (length (List.filter filled (slots_up p))).
Definition last_filled (p : Z -> cell) (j : cell) : cell :=
  default j (List.find filled (slots_down p)).

(** The flight points of a group and a count, as a number. *)
Definition flight_points_of (g : cell) (n : Z) : Z :=
  (5 - n) * FLIGHT_FACTOR
  + (if decide (g = CStr "No O-Flights") then NO_FLIGHT_FACTOR else 0).

(** The scored row: the renamed row with its five derived cells. *)
Definition scored_row_of (today : datetime) (r : Row) (p : Z -> cell) (g j : cell) : Row :=
  let n := filled_count p in
  let lp := last_filled p j in
  let fp := flight_points_of g n in
  let dp := calculate_date_points today lp in
  <["total_points" := CInt (fp + dp)]>
    (<["date_points" := CInt dp]>
       (<["flight_points" := CInt fp]>
          (<["last_powered" := lp]>
             (<["powered_count" := CInt n]> r)))).

(** The slots of the sample rows as a function of the ordinal. *)
Definition slots_of (p1 p2 p3 p4 p5 : cell) (i : Z) : cell :=
  if i =? 1 then p1 else if i =? 2 then p2 else if i =? 3 then p3
  else if i =? 4 then p4 else p5.

(** A raw record with one powered flight and a whitespace-only slot. *)
Definition clark_row : Row :=
  sample_row 300 "Clark" "Has Flights" "01 Feb 2021"
    (CStr "Feb-22") (CStr "  ") CNaN CNaN CNaN.

(** The column [col] of the row is there and holds text or nothing. *)
Definition readable_slot (row : Row) (col : string) : Prop :=
  exists c, row !! col = Some c /\ textual c.

(** The cell of a column, NaN when the column is not there. *)
Definition cell_at (row : Row) (col : string) : cell := default CNaN (row !! col).

(** Months counted from year 0: what the month difference compares. *)
Definition month_index (d : datetime) : Z := year d * 12 + month d.

(** The year of a two-digit [%y] value. *)
Definition two_digit_year (v : Z) : Z := if v <=? 68 then v + 2000 else v + 1900.

Global Instance datetime_eq_dec : EqDecision datetime.
Proof. solve_decision. Defined.

(** The label [format_last_flight] makes of a slot: month and year when
    the text reads as ["%b-%y"], else the text as it is. *)
Definition label_of (c : cell) : string :=
  match c with
  | CStr s => match strptime_b_y s with
              | Some date => strftime_b_y date
              | None => s
              end
  | _ => EmptyString
  end.

(** The years of the two-digit window and the months, for checking the
    round trip of the label case by case. *)
Definition window_years : list Z := (fun i => 1969 + Z.of_nat i) <$> seq 0 100.
Definition months : list Z := (fun i => 1 + Z.of_nat i) <$> seq 0 12.

Definition label_round_trip (y m : Z) : bool :=
  bool_decide (strptime_b_y (strftime_b_y (mk_datetime y m 1)) = Some (mk_datetime y m 1))
  && (String.length (strftime_b_y (mk_datetime y m 1)) =? 6)%nat.

(** The rows and the identifiers a report holds, in the order written. *)
Definition entries_of (cs : list chunk) : list entry :=
  omap (fun c => match c with W_entry e => Some e | _ => None end) cs.
Definition ids_of (cs : list chunk) : list string :=
  omap (fun c => match c with W_id cap_id => Some cap_id | _ => None end) cs.

(** [k] consecutive ranks from [start]. *)
Definition ranks_from (start : Z) (k : nat) : list Z :=
  (fun i => start + Z.of_nat i) <$> seq 0 k.

(** A row the report can print: the loop body does not raise on it. *)
Definition printable (row : Row) : Prop := exists e, make_entry 0 row = Ok e.

(** An entry under another rank. *)
Definition with_index (i : Z) (e : entry) : entry :=
  mk_entry i (e_capid e) (e_name e) (e_points e) (e_next e) (e_last e).

(** A scored table the Slotter can read: it has the two columns the
    Slotter uses, every row has an identifier and an integer total. *)
Definition readable_scored (df : DataFrame) : Prop :=
  "CAPID" ∈ columns df
  /\ "total_points" ∈ columns df
  /\ Forall (fun r => is_Some (r !! "CAPID")
                      /\ exists t, r !! "total_points" = Some (CInt t)) (rows df).

(** A raw record the Scorer can score: five powered slots of text or
    nothing, a group, and a joined date or a filled slot. *)
Definition scoreable (row : Row) : Prop :=
  (forall i, 1 <= i <= 5 -> readable_slot row (legacy_powered i))
  /\ is_Some (row !! "GroupType")
  /\ (is_Some (row !! "Joined")
      \/ exists i, 1 <= i <= 5 /\ filled (cell_at row (legacy_powered i)) = true).

(** The width a field takes in a line: the text is padded to the width
    of the field and never cut. *)
Definition field_width (width : nat) (s : string) : nat := Nat.max width (String.length s).

(** A scored row as the Slotter prints it: one powered flight, stored
    count and total. *)
Definition printed_row : Row :=
  <["powered_count" := CInt 1]>
    (<["total_points" := CInt 39]>
       (powered_row (CStr "jan-23") CNaN (CStr "  ") CNaN CNaN (CStr "01 Jan 2022"))).

(* ===================================================================== *)
(** * Properties *)
(* ===================================================================== *)

(** ** Small facts about the embedding *)

Lemma getitem_Some (row : Row) (col : string) (c : cell) :
  row !! col = Some c -> getitem row col = Ok c.
Proof. intros H. unfold getitem. now rewrite H. Qed.

Lemma getitem_Ok (row : Row) (col : string) (c : cell) :
  getitem row col = Ok c -> row !! col = Some c.
Proof. unfold getitem. destruct (row !! col); congruence. Qed.

Lemma result_bind_Ok {A B} (f : A -> result B) (m : result A) (b : B) :
  m ≫= f = Ok b -> exists a, m = Ok a /\ f a = Ok b.
Proof. destruct m as [a|e]; simpl; [eauto | discriminate]. Qed.


(** ** Flight points *)

(** C1. Flight points are [(5 - powered_count) * FLIGHT_FACTOR], plus
    [NO_FLIGHT_FACTOR] exactly for the group ["No O-Flights"]; with the
    factors at 5 and a count between 0 and 5 they lie in 0..25, and in
    5..30 for that group. *)
Theorem calculate_flight_points_spec (row : Row) (g : cell) (n : Z) :
  row !! "GroupType" = Some g ->
  row !! "powered_count" = Some (CInt n) ->
  let bonus := if decide (g = CStr "No O-Flights") then NO_FLIGHT_FACTOR else 0 in
  let fp := (5 - n) * FLIGHT_FACTOR + bonus in
  calculate_flight_points row = Ok (CInt fp)
  /\ (0 <= n <= 5 ->
      FLIGHT_FACTOR = 5 /\ NO_FLIGHT_FACTOR = 5
      /\ if decide (g = CStr "No O-Flights") then 5 <= fp <= 30 else 0 <= fp <= 25).
Proof.
  intros Hg Hn bonus fp. subst bonus fp. split.
  - unfold calculate_flight_points.
    rewrite (getitem_Some _ _ _ Hg). simpl.
    destruct (decide (g = CStr "No O-Flights"));
      rewrite (getitem_Some _ _ _ Hn); simpl; do 2 f_equal; lia.
  - intros Hr. unfold FLIGHT_FACTOR, NO_FLIGHT_FACTOR.
    destruct (decide (g = CStr "No O-Flights")); repeat split; lia.
Qed.

Lemma calculate_flight_points_spec_witness :
  calculate_flight_points
    (<["GroupType" := CStr "No O-Flights"]> (<["powered_count" := CInt 3]> ∅))
  = Ok (CInt 15).
Proof.
  pose proof (calculate_flight_points_spec
    (<["GroupType" := CStr "No O-Flights"]> (<["powered_count" := CInt 3]> ∅))
    (CStr "No O-Flights") 3 eq_refl eq_refl) as [H _].
  exact H.
Defined.

(** The count of powered flights is between 0 and 5. *)
Lemma count_powered_loop_range (row : Row) (ordinals : list Z) (count n : Z) :
  count_powered_loop row ordinals count = Ok n ->
  count <= n <= count + Z.of_nat (length ordinals).
Proof.
  revert count. induction ordinals as [|i rest IH]; intros count H; simpl in *.
  - injection H as <-. lia.
  - apply result_bind_Ok in H as (c & _ & H).
    apply result_bind_Ok in H as (b & _ & H).
    apply IH in H. destruct b; lia.
Qed.

Lemma count_powered_flights_range (row : Row) (n : Z) :
  count_powered_flights row = Ok n -> 0 <= n <= 5.
Proof. intros H. apply count_powered_loop_range in H. simpl in H. lia. Qed.

(** ** The report layout *)





(** ** Validation of the input columns *)

Lemma validate_dataframe_cases (df : DataFrame) :
  (missing_of df = ∅ /\ validate_dataframe df = Ok tt)
  \/ (missing_of df <> ∅ /\ validate_dataframe df = Raise (MissingColumns (missing_of df))).
Proof.
  unfold validate_dataframe, missing_of.
  destruct (decide (REQUIRED_COLUMNS ∖ list_to_set (columns df) = ∅)); auto.
Qed.

Lemma missing_of_empty_iff (df : DataFrame) :
  missing_of df = ∅ <-> forall c, c ∈ REQUIRED_COLUMNS -> c ∈ columns df.
Proof.
  unfold missing_of. split.
  - intros H c Hc. destruct (decide (c ∈ columns df)) as [|Hn]; [done|].
    exfalso. assert (c ∈ REQUIRED_COLUMNS ∖ (list_to_set (columns df) : gset string))
      by (apply elem_of_difference; split; [done | now rewrite elem_of_list_to_set]).
    rewrite H in H0. set_solver.
  - intros H. apply set_eq. intros c. rewrite elem_of_difference, elem_of_list_to_set.
    split; [intros [Hc Hn]; exfalso; auto | set_solver].
Qed.

(** C6, as the code has it.  The required set is the five columns of
    [REQUIRED_COLUMNS]: a table with all five passes validation; a table
    lacking one of them makes the Scorer stop, before any computation,
    with the error that carries exactly the missing required columns. *)
Theorem validate_dataframe_spec (df : DataFrame) :
  ((forall c, c ∈ REQUIRED_COLUMNS -> c ∈ columns df) -> validate_dataframe df = Ok tt)
  /\ ((exists c, c ∈ REQUIRED_COLUMNS /\ c ∉ columns df) ->
      exists missing,
        validate_dataframe df = Raise (MissingColumns missing)
        /\ (forall c, c ∈ missing <-> c ∈ REQUIRED_COLUMNS /\ c ∉ columns df)
        /\ forall argsort today,
             score_data today df = Raise (MissingColumns missing)
             /\ process_data argsort today df = Raise (MissingColumns missing)).
Proof.
  split.
  - intros H. apply missing_of_empty_iff in H.
    destruct (validate_dataframe_cases df) as [[_ E]|[N _]]; [exact E | contradiction].
  - intros (c & Hc & Hn).
    destruct (validate_dataframe_cases df) as [[E _]|[_ E]].
    + exfalso. apply Hn. now apply (proj1 (missing_of_empty_iff df) E).
    + exists (missing_of df). split; [exact E|]. split.
      * intros x. unfold missing_of.
        rewrite elem_of_difference, elem_of_list_to_set. tauto.
      * intros argsort today. unfold process_data, score_data.
        rewrite E. split; reflexivity.
Qed.

Lemma validate_dataframe_spec_witness :
  validate_dataframe sample_report = Ok tt
  /\ exists missing, validate_dataframe no_joined = Raise (MissingColumns missing)
       /\ "Joined" ∈ missing /\ "Textbox25" ∈ missing.
Proof.
  split.
  - apply (proj1 (validate_dataframe_spec sample_report)).
    intros c Hc. unfold REQUIRED_COLUMNS in Hc. unfold sample_report, sample_columns. simpl.
    set_solver.
  - destruct (proj2 (validate_dataframe_spec no_joined)) as (missing & E & Hm & _).
    + exists "Joined". split; [unfold REQUIRED_COLUMNS; set_solver|].
      unfold no_joined. simpl. set_solver.
    + exists missing. split; [exact E|].
      split; apply Hm; (split; [unfold REQUIRED_COLUMNS; set_solver|]);
        unfold no_joined; simpl; set_solver.
Defined.

(** C6 as stated fails: a table without any of the ten activity-slot
    columns (and without identifier columns) passes validation, and the
    Scorer then stops at the first row with [KeyError], not with the
    schema error. *)
Lemma activity_columns_not_validated :
("Textbox135" ∉ columns only_required)
  /\ validate_dataframe only_required = Ok tt
  /\ process_data merge_argsort sample_today only_required = Raise (KeyError "powered_1").
Proof.
  split; [|split].
  - unfold only_required. simpl. set_solver.
  - apply (proj1 (validate_dataframe_spec only_required)).
    intros c Hc. unfold REQUIRED_COLUMNS in Hc. unfold only_required. simpl. set_solver.
  - vm_compute. reflexivity.
Qed.

(** ** Trimming and blank text *)

Lemma rev_app_length (s acc : string) :
  String.length (String.rev_app s acc) = (String.length s + String.length acc)%nat.
Proof.
  revert acc. induction s as [|c s IH]; intros acc; simpl; [done|].
  rewrite IH. simpl. lia.
Qed.

Lemma lstrip_all_space (s : string) :
  PyStr.truthy (PyStr.lstrip s) = negb (all_space s).
Proof.
  induction s as [|c s IH]; simpl; [done|].
  destruct (PyStr.isspace c); simpl; [exact IH | done].
Qed.

Lemma lstrip_rev_app_truthy (s acc : string) :
  PyStr.truthy (PyStr.lstrip acc) = true ->
  PyStr.truthy (PyStr.lstrip (String.rev_app s acc)) = true.
Proof.
  revert acc. induction s as [|c s IH]; intros acc H; simpl; [done|].
  apply IH. simpl. destruct (PyStr.isspace c); [exact H | done].
Qed.

Lemma truthy_rev (s : string) : PyStr.truthy (String.rev s) = PyStr.truthy s.
Proof.
  pose proof (rev_app_length s EmptyString) as H. unfold String.rev.
  destruct s as [|c s]; [done|].
  destruct (String.rev_app (String c s) EmptyString) eqn:E; [simpl in H; lia | done].
Qed.

Lemma lstrip_head_not_space (s : string) (c : ascii) (r : string) :
  PyStr.lstrip s = String c r -> PyStr.isspace c = false.
Proof.
  induction s as [|a s IH]; simpl; [discriminate|].
  destruct (PyStr.isspace a) eqn:E; [exact IH|].
  intros H. injection H as <- _. exact E.
Qed.

(** A trimmed text is empty exactly when the text is empty or
    whitespace-only. *)
Lemma strip_truthy (s : string) :
  PyStr.truthy (PyStr.strip s) = negb (all_space s).
Proof.
  unfold PyStr.strip, PyStr.rstrip. rewrite truthy_rev.
  rewrite <- lstrip_all_space.
  destruct (PyStr.lstrip s) as [|c r] eqn:E; [reflexivity|].
  pose proof (lstrip_head_not_space _ _ _ E) as Hc.
  unfold String.rev. simpl. apply lstrip_rev_app_truthy. simpl. now rewrite Hc.
Qed.

Lemma nonblank_textual (c : cell) :
  textual c ->
  (blank c /\ nonblank c = Ok false) \/ (~ blank c /\ nonempty c /\ nonblank c = Ok true).
Proof.
  destruct c as [|s|n]; simpl; intros Ht; [| |contradiction].
  - left. split; [now left | reflexivity].
  - rewrite strip_truthy. destruct (all_space s) eqn:E; simpl.
    + left. split; [right; eauto | reflexivity].
    + right. split; [|split; [|reflexivity]].
      * intros [H|(s' & H & Hs)]; [discriminate|]. injection H as <-. congruence.
      * exists s. split; [reflexivity|]. intros ->. discriminate.
Qed.

(** ** The last powered date *)

Lemma find_last_powered_loop_all_blank (row : Row) (p : Z -> cell) (j : cell) (ordinals : list Z) :
  (forall i, i ∈ ordinals -> row !! powered_col i = Some (p i) /\ textual (p i) /\ blank (p i)) ->
  row !! "Joined" = Some j ->
  find_last_powered_loop row ordinals = Ok j.
Proof.
  intros H Hj. induction ordinals as [|i rest IH]; simpl.
  - now apply getitem_Some.
  - destruct (H i) as (Hi & Ht & Hb); [apply elem_of_cons; auto|].
    rewrite (getitem_Some _ _ _ Hi). simpl.
    destruct (nonblank_textual _ Ht) as [[_ ->]|[Hn _]]; [|contradiction]. simpl.
    apply IH. intros k Hk. apply H. apply elem_of_cons. auto.
Qed.

Lemma find_last_powered_loop_first (row : Row) (p : Z -> cell) (pre post : list Z) (i : Z) :
  (forall k, k ∈ pre -> row !! powered_col k = Some (p k) /\ textual (p k) /\ blank (p k)) ->
  row !! powered_col i = Some (p i) -> textual (p i) -> ~ blank (p i) ->
  find_last_powered_loop row (pre ++ i :: post) = Ok (p i) /\ nonempty (p i).
Proof.
  intros H Hi Ht Hnb. induction pre as [|k pre IH]; simpl.
  - rewrite (getitem_Some _ _ _ Hi). simpl.
    destruct (nonblank_textual _ Ht) as [[Hb _]|(_ & Hne & ->)]; [contradiction|].
    simpl. auto.
  - destruct (H k) as (Hk & Htk & Hb); [apply elem_of_cons; auto|].
    rewrite (getitem_Some _ _ _ Hk). simpl.
    destruct (nonblank_textual _ Htk) as [[_ ->]|[Hn _]]; [|contradiction]. simpl.
    apply IH. intros x Hx. apply H. apply elem_of_cons. auto.
Qed.

(** C5, as the code has it.  On a row whose five powered slots are text
    or missing, [find_last_powered_date] returns the non-blank slot of
    the highest ordinal, and that value is non-empty; when all five are
    blank it returns the joined date, whatever that is. *)
Theorem find_last_powered_date_spec (row : Row) (p : Z -> cell) (j : cell) :
  (forall i, 1 <= i <= 5 -> row !! powered_col i = Some (p i) /\ textual (p i)) ->
  row !! "Joined" = Some j ->
  (forall i, 1 <= i <= 5 -> ~ blank (p i) -> (forall k, i < k <= 5 -> blank (p k)) ->
     find_last_powered_date row = Ok (p i) /\ nonempty (p i))
  /\ ((forall i, 1 <= i <= 5 -> blank (p i)) -> find_last_powered_date row = Ok j).
Proof.
  intros H Hj. split.
  - intros i Hi Hnb Habove. unfold find_last_powered_date.
    assert (Hpre : forall pre post, [5; 4; 3; 2; 1] = pre ++ i :: post ->
                   (forall k, k ∈ pre -> i < k <= 5) ->
                   find_last_powered_loop row (pre ++ i :: post) = Ok (p i) /\ nonempty (p i)).
    { intros pre post _ Hk. destruct (H i Hi) as [Hl Ht].
      apply find_last_powered_loop_first; auto.
      intros k Hin. specialize (Hk k Hin).
      destruct (H k) as [Hlk Htk]; [lia|]. auto. }
    assert (Hc : i = 5 \/ i = 4 \/ i = 3 \/ i = 2 \/ i = 1) by lia.
    destruct Hc as [->|[->|[->|[->| ->]]]].
    + apply (Hpre [] [4; 3; 2; 1] eq_refl). intros k Hk. inversion Hk.
    + apply (Hpre [5] [3; 2; 1] eq_refl). intros k Hk.
      repeat (apply elem_of_cons in Hk as [->|Hk]; [lia|]). inversion Hk.
    + apply (Hpre [5; 4] [2; 1] eq_refl). intros k Hk.
      repeat (apply elem_of_cons in Hk as [->|Hk]; [lia|]). inversion Hk.
    + apply (Hpre [5; 4; 3] [1] eq_refl). intros k Hk.
      repeat (apply elem_of_cons in Hk as [->|Hk]; [lia|]). inversion Hk.
    + apply (Hpre [5; 4; 3; 2] [] eq_refl). intros k Hk.
      repeat (apply elem_of_cons in Hk as [->|Hk]; [lia|]). inversion Hk.
  - intros Hall. unfold find_last_powered_date.
    apply (find_last_powered_loop_all_blank row p); [|exact Hj].
    intros i Hi.
    assert (1 <= i <= 5) as Hr
      by (repeat (apply elem_of_cons in Hi as [->|Hi]; [lia|]); inversion Hi).
    destruct (H i Hr). auto.
Qed.

Lemma find_last_powered_date_spec_witness :
  find_last_powered_date
    (powered_row (CStr "Jan-23") (CStr "09 Mar 2023") (CStr "  ") CNaN CNaN (CStr "01 Jan 2022"))
  = Ok (CStr "09 Mar 2023")
  /\ nonempty (CStr "09 Mar 2023").
Proof.
  set (p := fun i : Z =>
    if i =? 1 then CStr "Jan-23" else if i =? 2 then CStr "09 Mar 2023"
    else if i =? 3 then CStr "  " else CNaN).
  apply (proj1 (find_last_powered_date_spec
           (powered_row (CStr "Jan-23") (CStr "09 Mar 2023") (CStr "  ") CNaN CNaN
                        (CStr "01 Jan 2022"))
           p (CStr "01 Jan 2022")
           ltac:(intros i Hi;
                 assert (i = 1 \/ i = 2 \/ i = 3 \/ i = 4 \/ i = 5) as Hc by lia;
                 destruct Hc as [->|[->|[->|[->| ->]]]]; (split; [reflexivity | exact I]))
           eq_refl) 2).
  - lia.
  - intros [H|(s & H & Hs)]; [discriminate|]. injection H as <-. discriminate.
  - intros k Hk. assert (k = 3 \/ k = 4 \/ k = 5) as Hc by lia.
    destruct Hc as [->|[->| ->]]; [right; exists "  "; split; reflexivity | now left | now left].
Defined.

(** C5 as stated fails in its last part: with no powered flight and no
    joined date the value returned is the missing value, not a non-empty
    text. *)
Lemma last_powered_can_be_missing :
  find_last_powered_date (powered_row CNaN CNaN CNaN CNaN CNaN CNaN) = Ok CNaN
  /\ ~ nonempty CNaN.
Proof.
  split; [vm_compute; reflexivity|].
  intros (s & H & _). discriminate.
Qed.

(** ** The candidate list *)















(** ** The date parser *)

Lemma in_m_bind {A B} (m : Strptime.matcher A) (k : A -> Strptime.matcher B)
    (s : string) (x : B * string) :
  In x (Strptime.m_bind m k s) <-> exists a r, In (a, r) (m s) /\ In x (k a r).
Proof.
  unfold Strptime.m_bind. rewrite in_concat. split.
  - intros (l & Hl & Hx). apply in_map_iff in Hl as ([a r] & <- & Hin). eauto.
  - intros (a & r & Hin & Hx). exists (k a r). split; [|exact Hx].
    apply in_map_iff. exists (a, r). auto.
Qed.

Lemma in_m_char (p : ascii -> bool) (s : string) (a : ascii) (r : string) :
  In (a, r) (Strptime.m_char p s) <-> s = String a r /\ p a = true.
Proof.
  unfold Strptime.m_char. destruct s as [|c s']; simpl.
  - split; [contradiction | intros [H _]; discriminate].
  - destruct (p c) eqn:E; simpl.
    + split.
      * intros [H|[]]. injection H as <- <-. auto.
      * intros [H _]. injection H as <- <-. auto.
    + split; [contradiction|]. intros [H Hp]. injection H as <- <-. congruence.
Qed.

Lemma in_m_ret {A} (a : A) (s : string) (x : A * string) :
  In x (Strptime.m_ret a s) <-> x = (a, s).
Proof. unfold Strptime.m_ret. simpl. split; [intros [H|[]]; auto | auto]. Qed.

Lemma in_m_alt {A} (m1 m2 : Strptime.matcher A) (s : string) (x : A * string) :
  In x (Strptime.m_alt m1 m2 s) <-> In x (m1 s) \/ In x (m2 s).
Proof. unfold Strptime.m_alt. apply in_app_iff. Qed.

Lemma in_m_word_ci (w s r : string) (u : unit) :
  In (u, r) (Strptime.m_word_ci w s) -> chars_before (String.length w) s r.
Proof.
  revert s. induction w as [|c w IH]; intros s H; simpl in *.
  - apply in_m_ret in H. now injection H as _ <-.
  - apply in_m_bind in H as (a & s' & Ha & H).
    apply in_m_char in Ha as [-> _]. eauto.
Qed.

Lemma in_m_names (names : list string) (i m : Z) (s r : string) :
  Forall (fun w => String.length w = 3%nat) names ->
  In (m, r) (Strptime.m_names i names s) -> chars_before 3 s r.
Proof.
  intros Hn. revert i. induction Hn as [|w names Hw _ IH]; intros i H; simpl in H.
  - contradiction.
  - apply in_m_alt in H as [H|H]; [|eapply IH, H].
    apply in_m_bind in H as (u & s' & Hu & H).
    apply in_m_ret in H. injection H as _ <-.
    apply in_m_word_ci in Hu. now rewrite Hw in Hu.
Qed.

Lemma in_m_b (m : Z) (s r : string) :
  In (m, r) (Strptime.m_b s) -> chars_before 3 s r.
Proof.
  apply in_m_names. unfold Strptime.a_month.
  repeat (constructor; [reflexivity|]). constructor.
Qed.

Lemma in_m_y (y : Z) (s r : string) :
  In (y, r) (Strptime.m_y s) ->
  exists a b, s = String a (String b r) /\ PyStr.isdigit a = true /\ PyStr.isdigit b = true.
Proof.
  unfold Strptime.m_y. intros H.
  apply in_m_bind in H as (a & s1 & Ha & H). apply in_m_char in Ha as [-> Ha].
  apply in_m_bind in H as (b & s2 & Hb & H). apply in_m_char in Hb as [-> Hb].
  apply in_m_ret in H. injection H as _ <-. eauto.
Qed.

(** The texts [%d] matches, with their values. *)
Lemma in_m_d (d : Z) (s r : string) :
  In (d, r) (Strptime.m_d s) ->
  (exists a b, s = String a (String b r)
     /\ ((PyStr.isdigit a = true /\ d = 10 * PyStr.digit_value a + PyStr.digit_value b)
         \/ (a = " "%char /\ d = PyStr.digit_value b)))
  \/ (exists a, s = String a r /\ Strptime.in_range "1" "9" a = true /\ d = PyStr.digit_value a).
Proof.
  unfold Strptime.m_d, Strptime.m_lit. intros H.
  repeat (apply in_m_alt in H as [H|H]);
    repeat (let a := fresh "a" in let s' := fresh "s" in let Ha := fresh "Ha" in
            apply in_m_bind in H as (a & s' & Ha & H);
            apply in_m_char in Ha as [-> Ha]);
    apply in_m_ret in H; injection H as -> <-.
  - left. do 2 eexists. split; [reflexivity|]. left. split; [|reflexivity].
    apply Ascii.eqb_eq in Ha. now subst.
  - left. do 2 eexists. split; [reflexivity|]. left. split; [|reflexivity].
    unfold Strptime.in_range in Ha. unfold PyStr.isdigit.
    change (PyStr.code "1") with 49 in Ha. change (PyStr.code "2") with 50 in Ha. lia.
  - left. do 2 eexists. split; [reflexivity|]. left. split; [|reflexivity].
    apply Ascii.eqb_eq in Ha. now subst.
  - right. eauto.
  - left. do 2 eexists. split; [reflexivity|]. right. split; [|reflexivity].
    apply Ascii.eqb_eq in Ha. now subst.
Qed.

Lemma finish_Some (found : list ((Z * Z * Z) * string)) (dt : datetime) :
  Strptime.finish found = Some dt ->
  In ((year dt, month dt, day dt), EmptyString) found
  /\ Strptime.valid_date (year dt) (month dt) (day dt) = true.
Proof.
  unfold Strptime.finish. destruct found as [|[[[y m] d] r] rest]; [discriminate|].
  destruct r; [|discriminate].
  destruct (Strptime.valid_date y m d) eqn:E; [|discriminate].
  intros H. injection H as <-. simpl. auto.
Qed.

(** Whatever [%b-%y-%d] accepts is three characters, a hyphen, two
    digits, a hyphen and a day. *)
Lemma strptime_b_y_d_shape (t : string) (dt : datetime) :
  Strptime.strptime_b_y_d t = Some dt ->
  exists c1 c2 c3 y1 y2 dtext,
    t = String c1 (String c2 (String c3 (String "-" (String y1 (String y2 (String "-" dtext))))))
    /\ PyStr.isdigit y1 = true /\ PyStr.isdigit y2 = true
    /\ In (day dt, EmptyString) (Strptime.m_d dtext).
Proof.
  unfold Strptime.strptime_b_y_d. intros H. apply finish_Some in H as [H _].
  apply in_m_bind in H as (m & s1 & Hm & H). apply in_m_b in Hm.
  destruct Hm as (c1 & ? & -> & c2 & ? & -> & c3 & ? & -> & ->).
  unfold Strptime.m_lit in H.
  apply in_m_bind in H as (h1 & s2 & Hh1 & H). apply in_m_char in Hh1 as [-> Hh1].
  apply Ascii.eqb_eq in Hh1. subst h1.
  apply in_m_bind in H as (y & s3 & Hy & H). apply in_m_y in Hy as (y1 & y2 & -> & Hy1 & Hy2).
  apply in_m_bind in H as (h2 & s4 & Hh2 & H). apply in_m_char in Hh2 as [-> Hh2].
  apply Ascii.eqb_eq in Hh2. subst h2.
  apply in_m_bind in H as (d & s5 & Hd & H).
  apply in_m_ret in H. injection H as _ _ -> ->.
  exists c1, c2, c3, y1, y2, s4. auto.
Qed.

(** The first format reads the 1st of the month. *)
Lemma strptime_b_y_d_first_day (s : string) (dt : datetime) :
  Strptime.strptime_b_y_d (s +:+ "-01") = Some dt -> day dt = 1.
Proof.
  intros H. apply strptime_b_y_d_shape in H
    as (c1 & c2 & c3 & y1 & y2 & dtext & E & Hy1 & Hy2 & Hd).
  apply in_m_d in Hd as [(a & b & -> & Hab)|(a & -> & Ha & Hv)].
  - do 10 (try (peel s E)); try congruence.
    assert (a = "0"%char /\ b = "1"%char) as [-> ->] by (split; congruence).
    destruct Hab as [[_ ->]|[Habs _]]; [reflexivity | discriminate].
  - do 9 (try (peel s E)); try congruence.
Qed.

Lemma split_go_length (sep : ascii) (cur s : string) :
  length (PyStr.split_go sep cur s) = S (count_char sep s).
Proof.
  revert cur. induction s as [|c s IH]; intros cur; simpl; [reflexivity|].
  destruct (Ascii.eqb c sep); simpl; now rewrite IH.
Qed.

Lemma parse_date_None_months (today : datetime) (c : cell) :
  parse_date c = None ->
  calculate_months_since today c = 0 /\ calculate_date_points today c = 0.
Proof.
  intros H. unfold calculate_date_points, calculate_months_since. rewrite H.
  destruct (cell_falsy c); split; reflexivity.
Qed.

(** C7. A text that splits on hyphens into exactly two parts (it has
    one hyphen) is read as month and two-digit year, the 1st of the
    month; any other text as day, month and four-digit year.  When the
    reading fails the date is absent and counts 0 months, 0 points;
    nothing is raised. *)
Theorem parse_date_spec (s : string) :
  length (PyStr.split "-" s) = S (count_char "-" s)
  /\ (length (PyStr.split "-" s) = 2%nat ->
      parse_date (CStr s) = Strptime.strptime_b_y_d (s +:+ "-01")
      /\ forall dt, parse_date (CStr s) = Some dt -> day dt = 1)
  /\ (length (PyStr.split "-" s) <> 2%nat ->
      parse_date (CStr s) = Strptime.strptime_d_b_Y s)
  /\ (Strptime.strptime_b_y_d (s +:+ "-01") = None ->
      Strptime.strptime_d_b_Y s = None -> parse_date (CStr s) = None)
  /\ (forall today c, parse_date c = None ->
        calculate_months_since today c = 0 /\ calculate_date_points today c = 0)
  /\ parse_date (CStr "Mar-25") = Some (mk_datetime 2025 3 1)
  /\ parse_date (CStr "09 Mar 2023") = Some (mk_datetime 2023 3 9)
  /\ parse_date (CStr "2023-03-09") = None
  /\ parse_date CNaN = None.
Proof.
  split; [apply split_go_length|].
  split; [|split; [|split; [|split]]].
  - intros H2. unfold parse_date. rewrite H2. simpl. split; [reflexivity|].
    intros dt. apply strptime_b_y_d_first_day.
  - intros Hn. unfold parse_date.
    destruct (Nat.eqb_spec (length (PyStr.split "-" s)) 2); [contradiction | reflexivity].
  - intros H1 H2. unfold parse_date.
    destruct (length (PyStr.split "-" s) =? 2)%nat; assumption.
  - apply parse_date_None_months.
  - repeat split; vm_compute; reflexivity.
Qed.

(** ** Date points *)

Lemma parse_date_Some_valid (c : cell) (d : datetime) :
  parse_date c = Some d ->
  cell_falsy c = false /\ Strptime.valid_date (year d) (month d) (day d) = true.
Proof.
  destruct c as [|s|n]; simpl; try discriminate.
  intros H. split.
  - destruct s; [vm_compute in H; discriminate | reflexivity].
  - destruct (length (PyStr.split "-" s) =? 2)%nat;
      [unfold Strptime.strptime_b_y_d in H | unfold Strptime.strptime_d_b_Y in H];
      now apply finish_Some in H.
Qed.

Lemma valid_date_month (y m d : Z) :
  Strptime.valid_date y m d = true -> 1 <= m <= 12.
Proof. unfold Strptime.valid_date. lia. Qed.

Lemma calculate_date_points_nonneg (today : datetime) (c : cell) :
  0 <= calculate_date_points today c.
Proof.
  unfold calculate_date_points, calculate_months_since, DATE_FACTOR.
  destruct (cell_falsy c); [lia|]. destruct (parse_date c); lia.
Qed.

(** C2. When the last powered date parses, the date points are the
    calendar month difference to today, floored at 0, times
    [DATE_FACTOR]; date points are never negative, and are 0 for a date in
    the current month or in a later one. *)
Theorem calculate_date_points_spec (today : datetime) (last_powered : cell) (d : datetime) :
  parse_date last_powered = Some d ->
  calculate_date_points today last_powered
  = Z.max 0 ((year today - year d) * 12 + (month today - month d)) * DATE_FACTOR
  /\ (forall c, 0 <= calculate_date_points today c)
  /\ (1 <= month today <= 12 ->
      year today < year d \/ (year today = year d /\ month today <= month d) ->
      calculate_date_points today last_powered = 0).
Proof.
  intros H. destruct (parse_date_Some_valid _ _ H) as [Hf Hv].
  apply valid_date_month in Hv.
  assert (E : calculate_date_points today last_powered
              = Z.max 0 ((year today - year d) * 12 + (month today - month d)) * DATE_FACTOR).
  { unfold calculate_date_points, calculate_months_since. now rewrite Hf, H. }
  split; [exact E|]. split; [apply calculate_date_points_nonneg|].
  intros Ht Hfut. rewrite E. unfold DATE_FACTOR. lia.
Qed.

Lemma calculate_date_points_spec_witness :
  calculate_date_points (mk_datetime 2023 9 9) (CStr "09 Mar 2023") = 6
  /\ calculate_date_points (mk_datetime 2023 3 31) (CStr "09 Mar 2023") = 0.
Proof.
  split.
  - exact (proj1 (calculate_date_points_spec (mk_datetime 2023 9 9) (CStr "09 Mar 2023")
                    (mk_datetime 2023 3 9) eq_refl)).
  - apply (proj2 (proj2 (calculate_date_points_spec (mk_datetime 2023 3 31)
                           (CStr "09 Mar 2023") (mk_datetime 2023 3 9) eq_refl))).
    + simpl. lia.
    + right. simpl. lia.
Defined.

(** ** Matching candidates with scored rows *)

Lemma mapM_result_Ok {A B} (f : A -> result B) (l : list A) (k : list B) :
  mapM f l = Ok k <-> Forall2 (fun a b => f a = Ok b) l k.
Proof.
  revert k. induction l as [|a l IH]; intros k; simpl.
  - split.
    + intros H. injection H as <-. constructor.
    + intros H. inversion H. reflexivity.
  - split.
    + intros H. apply result_bind_Ok in H as (b & Hb & H).
      apply result_bind_Ok in H as (k' & Hk & H). injection H as <-.
      constructor; [exact Hb | now apply IH].
    + intros H. inversion H as [|? b ? k' Hb Hk]; subst.
      apply IH in Hk. unfold mbind, result_bind in *.
      rewrite Hb. setoid_rewrite Hk. reflexivity.
Qed.

Lemma get_column_Ok (col : string) (df : DataFrame) (cells : list cell) :
  get_column col df = Ok cells ->
  col ∈ columns df /\ Forall2 (fun r c => r !! col = Some c) (rows df) cells.
Proof.
  unfold get_column. destruct (decide (col ∈ columns df)); [|discriminate].
  intros H. split; [assumption|]. apply mapM_result_Ok in H.
  eapply Forall2_impl; [exact H|]. intros r c. apply getitem_Ok.
Qed.

Lemma set_capid_astype (rws : list Row) (capid : list cell) :
  Forall2 (fun r c => r !! "CAPID" = Some c) rws capid ->
  zip_with (fun r v => <["CAPID" := v]> r) rws (CStr <$> (cell_str <$> capid))
  = astype_str_row <$> rws.
Proof.
  induction 1 as [|r c rws capid Hr _ IH]; [reflexivity|].
  rewrite !fmap_cons. cbn [zip_with]. rewrite IH. f_equal.
  unfold astype_str_row. now rewrite Hr.
Qed.

(** What [slot_assignment] computes when it returns. *)
Lemma slot_assignment_Ok (argsort : list Z -> list nat) (cap_ids : list string)
    (df : DataFrame) (s : slotting) :
  slot_assignment argsort cap_ids df = Ok s ->
  (forall r, r ∈ rows df -> is_Some (r !! "CAPID"))
  /\ rows (s_filtered s) = List.filter (isin_capid cap_ids) (astype_str_row <$> rows df)
  /\ sort_values_desc argsort "total_points" (s_filtered s) = Ok (s_sorted s)
  /\ s_unmatched s
     = List.filter (fun id => bool_decide
                      (id ∉ (list_to_set (omap capid_of (rows (s_filtered s))) : gset string)))
                   cap_ids.
Proof.
  unfold slot_assignment. intros H.
  apply result_bind_Ok in H as (capid & Hc & H).
  apply get_column_Ok in Hc as [_ Hc].
  apply result_bind_Ok in H as (sorted & Hs & H). injection H as <-.
  cbn [s_filtered s_sorted s_unmatched rows] in *.
  unfold set_column in *. cbn [rows columns] in *.
  rewrite (set_capid_astype _ _ Hc) in *.
  split; [|split; [reflexivity | split; [exact Hs | reflexivity]]].
  intros r Hr. apply list_elem_of_lookup in Hr as [i Hi].
  destruct (Forall2_lookup_l _ _ _ _ _ Hc Hi) as (c & _ & Hrc). eauto.
Qed.

Lemma isin_capid_astype (cap_ids : list string) (r : Row) (c : cell) :
  r !! "CAPID" = Some c ->
  isin_capid cap_ids (astype_str_row r) = bool_decide (cell_str c ∈ cap_ids)
  /\ capid_of (astype_str_row r) = Some (cell_str c).
Proof.
  intros H. unfold isin_capid, capid_of, astype_str_row. rewrite H.
  now rewrite lookup_insert_eq.
Qed.

Lemma elem_of_filtered (cap_ids : list string) (rws : list Row) (r' : Row) :
  (forall r, r ∈ rws -> is_Some (r !! "CAPID")) ->
  r' ∈ List.filter (isin_capid cap_ids) (astype_str_row <$> rws) <->
  exists r c, r ∈ rws /\ r !! "CAPID" = Some c
              /\ r' = <["CAPID" := CStr (cell_str c)]> r /\ cell_str c ∈ cap_ids.
Proof.
  intros Hall. rewrite list_elem_of_In, filter_In, <- list_elem_of_In, list_elem_of_fmap.
  split.
  - intros [(r & -> & Hr) Hin]. destruct (Hall r Hr) as [c Hc].
    destruct (isin_capid_astype cap_ids r c Hc) as [E _]. rewrite E in Hin.
    apply bool_decide_eq_true in Hin. exists r, c.
    repeat split; auto. unfold astype_str_row. now rewrite Hc.
  - intros (r & c & Hr & Hc & -> & Hin). split.
    + exists r. split; [|exact Hr]. unfold astype_str_row. now rewrite Hc.
    + replace (<["CAPID" := CStr (cell_str c)]> r) with (astype_str_row r)
        by (unfold astype_str_row; now rewrite Hc).
      destruct (isin_capid_astype cap_ids r c Hc) as [-> _].
      now apply bool_decide_eq_true.
Qed.

Lemma elem_of_matched_ids (cap_ids : list string) (rws : list Row) (id : string) :
  (forall r, r ∈ rws -> is_Some (r !! "CAPID")) ->
  id ∈ omap capid_of (List.filter (isin_capid cap_ids) (astype_str_row <$> rws)) <->
  id ∈ cap_ids /\ exists r c, r ∈ rws /\ r !! "CAPID" = Some c /\ cell_str c = id.
Proof.
  intros Hall. rewrite list_elem_of_omap. split.
  - intros (r' & Hr' & Hid). apply (elem_of_filtered _ _ _ Hall) in Hr'
      as (r & c & Hr & Hc & -> & Hin).
    unfold capid_of in Hid. rewrite lookup_insert_eq in Hid. injection Hid as <-. eauto 6.
  - intros (Hin & r & c & Hr & Hc & <-).
    exists (<["CAPID" := CStr (cell_str c)]> r). split.
    + apply (elem_of_filtered _ _ _ Hall). eauto 6.
    + unfold capid_of. now rewrite lookup_insert_eq.
Qed.

(** C8, as the code has it.  After [astype(str)] matching is textual: a
    scored row is kept exactly when the text of its identifier equals a
    candidate, and a candidate is unmatched exactly when no row's
    identifier text equals it.  The text of an identifier read as a
    number is its decimal form, so ["0100"] matches the text ["0100"] and
    neither the text ["100"] nor the number 100. *)
Theorem capid_matching_is_textual (argsort : list Z -> list nat)
    (cap_ids : list string) (df : DataFrame) (s : slotting) :
  slot_assignment argsort cap_ids df = Ok s ->
  (forall r', r' ∈ rows (s_filtered s) <->
     exists r c, r ∈ rows df /\ r !! "CAPID" = Some c
                 /\ r' = <["CAPID" := CStr (cell_str c)]> r
                 /\ exists id, id ∈ cap_ids /\ id = cell_str c)
  /\ (forall id, id ∈ s_unmatched s <->
        id ∈ cap_ids /\ ~ exists r c, r ∈ rows df /\ r !! "CAPID" = Some c /\ cell_str c = id)
  /\ isin_capid ["0100"] (astype_str_row (scored_row (CStr "0100") "Adams" 30)) = true
  /\ isin_capid ["0100"] (astype_str_row (scored_row (CStr "100") "Baker" 20)) = false
  /\ isin_capid ["0100"] (astype_str_row (scored_row (CInt 100) "Baker" 20)) = false
  /\ isin_capid ["100"] (astype_str_row (scored_row (CInt 100) "Baker" 20)) = true.
Proof.
  intros H. apply slot_assignment_Ok in H as (Hall & Hf & _ & Hu).
  split; [|split; [|repeat split; reflexivity]].
  - intros r'. rewrite Hf, (elem_of_filtered _ _ _ Hall). split.
    + intros (r & c & ? & ? & ? & ?). exists r, c. eauto 8.
    + intros (r & c & ? & ? & ? & id & ? & ->). exists r, c. auto.
  - intros id. rewrite Hu, list_elem_of_In, filter_In, <- list_elem_of_In, Hf.
    rewrite bool_decide_eq_true, elem_of_list_to_set, (elem_of_matched_ids _ _ _ Hall).
    split; intros [Hin Hn]; (split; [exact Hin|]); intros Hex; apply Hn; auto.
    now destruct Hex.
Qed.

Lemma capid_matching_is_textual_witness :
  (CStr <$> ["0100"; "A7"]
   = (fun r => default CNaN (r !! "CAPID"))
       <$> rows (s_filtered (slotting_of
             (slot_assignment merge_argsort ["0100"; "A7"; "200"] scored_text_ids))))
  /\ "200" ∈ s_unmatched (slotting_of
       (slot_assignment merge_argsort ["0100"; "A7"; "200"] scored_text_ids)).
Proof.
  pose proof (capid_matching_is_textual merge_argsort ["0100"; "A7"; "200"] scored_text_ids
    (slotting_of (slot_assignment merge_argsort ["0100"; "A7"; "200"] scored_text_ids))
    ltac:(vm_compute; reflexivity)) as (_ & Hu & _).
  split; [vm_compute; reflexivity|].
  apply Hu. split; [set_solver|].
  intros (r & c & Hr & Hc & Hid).
  unfold scored_text_ids in Hr. simpl in Hr.
  repeat (apply elem_of_cons in Hr as [->|Hr];
          [vm_compute in Hc; injection Hc as <-; vm_compute in Hid; discriminate|]).
  inversion Hr.
Defined.

(** ** Ranking *)















Global Instance ranks_before_trans : Transitive ranks_before.
Proof.
  intros [x|] [y|] [z|]; simpl; try tauto; lia.
Qed.

Lemma sort_values_desc_Ok (argsort : list Z -> list nat) (df out : DataFrame) :
  sort_values_desc argsort "total_points" df = Ok out ->
  columns out = columns df
  /\ rows out = take_by (nargsort_desc argsort (total_of <$> rows df)) (rows df).
Proof.
  unfold sort_values_desc. intros H.
  apply result_bind_Ok in H as (cells & Hc & H).
  apply result_bind_Ok in H as (keys & Hk & H). injection H as <-. simpl.
  split; [reflexivity|]. f_equal. f_equal.
  apply get_column_Ok in Hc as [_ Hc]. apply mapM_result_Ok in Hk.
  clear -Hc Hk. revert keys Hk.
  induction Hc as [|r c rws cells Hr _ IH]; intros keys Hk; inversion Hk; subst.
  - reflexivity.
  - rewrite fmap_cons. f_equal; [|now apply IH].
    unfold total_of. rewrite Hr.
    match goal with H : sort_key c = Ok _ |- _ => destruct c; simpl in H; congruence end.
Qed.

Section RankingFacts.

Variable argsort : list Z -> list nat.
Hypothesis argsort_ok : argsort_spec argsort.





End RankingFacts.

(** ** The merge-sort argsort meets the contract *)

Lemma zip_seq_lookup (ks : list Z) (start : nat) (p : nat * Z) :
  p ∈ zip (seq start (length ks)) ks -> ks !! (p.1 - start)%nat = Some p.2 /\ (start <= p.1)%nat.
Proof.
  revert start. induction ks as [|k ks IH]; intros start H; simpl in H.
  - inversion H.
  - apply elem_of_cons in H as [->|H]; simpl.
    + rewrite Nat.sub_diag. auto.
    + apply IH in H as [H Hle]. split; [|lia].
      replace (p.1 - start)%nat with (S (p.1 - S start)) by lia. exact H.
Qed.

Lemma take_by_pairs (ks : list Z) (ps : list (nat * Z)) :
  Forall (fun p => ks !! p.1 = Some p.2) ps -> take_by (ps.*1) ks = ps.*2.
Proof.
  unfold take_by. induction 1 as [|p ps Hp _ IH]; [reflexivity|].
  rewrite !fmap_cons. cbn [omap list_omap]. rewrite Hp.
  fold (omap (fun i => ks !! i) (ps.*1)). now rewrite IH.
Qed.

Lemma merge_argsort_spec : argsort_spec merge_argsort.
Proof.
  split; intros ks; unfold merge_argsort.
  - rewrite <- (KeySort.Permuted_sort (zip (seq 0 (length ks)) ks)).
    rewrite fst_zip; [reflexivity | rewrite length_seq; lia].
  - rewrite take_by_pairs.
    + apply (Sorted_fmap snd (fun x y => is_true (KeyOrder.leb x y))).
      * intros x y Hxy. unfold is_true, KeyOrder.leb in Hxy. lia.
      * apply KeySort.Sorted_sort.
    + apply Forall_forall. intros p Hp.
      assert (Hin : p ∈ zip (seq 0 (length ks)) ks).
      { rewrite (KeySort.Permuted_sort (zip (seq 0 (length ks)) ks)). exact Hp. }
      apply zip_seq_lookup in Hin as [Hin _]. now rewrite Nat.sub_0_r in Hin.
Qed.

(** ** The scored table has integer totals, so the ranking returns *)




Lemma cell_arith_CInt (f : Z -> Z) (n : Z) : cell_arith f (CInt n) = Ok (CInt (f n)).
Proof. reflexivity. Qed.



Lemma sort_values_desc_returns (argsort : list Z -> list nat) (df : DataFrame) :
  "total_points" ∈ columns df ->
  Forall (fun r => exists t, r !! "total_points" = Some (CInt t)) (rows df) ->
  exists out, sort_values_desc argsort "total_points" df = Ok out.
Proof.
  intros Hcol Hrows. unfold sort_values_desc, get_column.
  destruct (decide ("total_points" ∈ columns df)); [|contradiction].
  assert (E1 : mapM (fun r => getitem r "total_points") (rows df)
               = Ok ((fun r => default CNaN (r !! "total_points")) <$> rows df)).
  { apply mapM_result_Ok. apply Forall2_fmap_r, Forall_Forall2_diag.
    eapply Forall_impl; [exact Hrows|]. intros r [t Ht]. simpl.
    now rewrite (getitem_Some _ _ _ Ht), Ht. }
  rewrite E1. simpl.
  assert (E2 : mapM sort_key ((fun r => default CNaN (r !! "total_points")) <$> rows df)
               = Ok (total_of <$> rows df)).
  { apply mapM_result_Ok. apply Forall2_fmap. apply Forall_Forall2_diag.
    eapply Forall_impl; [exact Hrows|]. intros r [t Ht]. simpl.
    unfold total_of. now rewrite Ht. }
  rewrite E2. simpl. eauto.
Qed.





(** C8 as stated fails on the way into the Slotter.  A scored table whose
    identifiers are written 0100 and 0200 is read with integer
    identifiers 100 and 200; candidate ["0100"] then matches no row and
    is reported unmatched, while candidate ["100"] matches the row
    written 0100. *)
Lemma leading_zeros_are_lost :
  read_csv_digit_column ["0100"; "0200"] = Some [CInt 100; CInt 200]
  /\ capids (s_filtered (slotting_of
       (slot_assignment merge_argsort ["0100"] (scored_from_fields ["0100"; "0200"]))))
     = []
  /\ s_unmatched (slotting_of
       (slot_assignment merge_argsort ["0100"] (scored_from_fields ["0100"; "0200"])))
     = ["0100"]
  /\ capids (s_filtered (slotting_of
       (slot_assignment merge_argsort ["100"] (scored_from_fields ["0100"; "0200"]))))
     = [CStr "100"]
  /\ s_unmatched (slotting_of
       (slot_assignment merge_argsort ["100"] (scored_from_fields ["0100"; "0200"])))
     = [].
Proof.
  repeat split; vm_compute; reflexivity.
Qed.

(** ** Partition into primary slots, alternates and unmatched *)



Lemma bool_filter_sublist {A} (p : A -> bool) (l : list A) :
  List.filter p l `sublist_of` l.
Proof.
  induction l as [|x l IH]; simpl; [constructor|].
  destruct (p x); [now apply sublist_skip | now apply sublist_cons].
Qed.






Lemma df_head_iloc_from {A} (n : Z) (l : list A) :
  df_head n l ++ iloc_from n l = l.
Proof. unfold df_head, iloc_from. destruct (0 <=? n); apply take_drop. Qed.




(** The contract alone allows it too: the library merge sort meets the
    contract, and ranks the eighteen tied cadets as 3..18, 1, 2. *)
Lemma contract_allows_reordering :
  argsort_spec merge_argsort
  /\ capids (frame_of (process_data merge_argsort sample_today tied_report))
     = CInt <$> [3; 4; 5; 6; 7; 8; 9; 10; 11; 12; 13; 14; 15; 16; 17; 18; 1; 2].
Proof.
  split; [exact merge_argsort_spec | vm_compute; reflexivity].
Qed.

(** ** The pipeline on the sample report *)

(** Three powered flights, group "Has Flights": count 3, flight points
    [(5 - 3) * 5 = 10]; last flight "09 Mar 2023" seen on 9 Sep 2023: 6
    date points. *)
Example score_data_adams :
  (fun r => (r !! "powered_count", r !! "last_powered", r !! "flight_points",
             r !! "date_points", r !! "total_points"))
    <$> head (rows (frame_of (score_data sample_today sample_report)))
  = Some (Some (CInt 3), Some (CStr "09 Mar 2023"), Some (CInt 10),
          Some (CInt 6), Some (CInt 16)).
Proof. vm_compute. reflexivity. Qed.

(** No powered flight, group "No O-Flights": [(5 - 0) * 5 + 5 = 30], and
    the joined date stands in for the last flight. *)
Example score_data_baker :
  (fun r => (r !! "powered_count", r !! "last_powered", r !! "flight_points"))
    <$> (rows (frame_of (score_data sample_today sample_report)) !! 1%nat)
  = Some (Some (CInt 0), Some (CStr "15 Jun 2023"), Some (CInt 30)).
Proof. vm_compute. reflexivity. Qed.

(** Candidates 100, 200, 100, 300 against a table with 100 and 300 and
    one slot: the better of the two is primary, the other alternate, 200
    unmatched. *)
Example slots_command_sample :
  (fun w : written => (List.map render_chunk w.1, w.2))
    <$> slots_command merge_argsort sample_cadet_list (Ok scored_int_ids) (Some 1)
  = Ok ([ "Primary Slots:" +:+ newline;
          replicate_char 70 "=" +:+ newline;
          "  #  CAPID    Name                           Points  Next  Last Flight" +:+ newline;
          "  1  100      Adams                           30     1               " +:+ newline;
          newline +:+ "Alternates:" +:+ newline;
          replicate_char 70 "=" +:+ newline;
          "  #  CAPID    Name                           Points  Next  Last Flight" +:+ newline;
          "  2  300      Clark                           10     1               " +:+ newline;
          newline +:+ "Unmatched CAP IDs:" +:+ newline;
          replicate_char 20 "=" +:+ newline;
          "200" +:+ newline ], None).
Proof. vm_compute. reflexivity. Qed.

(* ===================================================================== *)
(** * Further properties: the code around the claims *)
(* ===================================================================== *)

(** ** Renaming the columns *)

Lemma rename_label_cases (c : string) :
  (c ∈ legacy_names /\ rename_label c ∈ new_names /\ rename_label c <> c)
  \/ ((c ∉ legacy_names) /\ rename_label c = c).
Proof.
  unfold rename_label.
  destruct ((list_to_map column_mapping : gmap string string) !! c) as [v|] eqn:E.
  - left. apply elem_of_list_to_map_2 in E. simpl.
    unfold column_mapping in E.
    repeat (apply elem_of_cons in E as [E|E];
            [injection E as -> ->; split; [|split];
             [ apply (bool_decide_unpack _); vm_compute; exact I
             | apply (bool_decide_unpack _); vm_compute; exact I
             | discriminate ] |]).
    inversion E.
  - right. split; [|reflexivity].
    apply not_elem_of_list_to_map_2 in E. exact E.
Qed.

Lemma new_names_not_legacy (c : string) : c ∈ new_names -> c ∉ legacy_names.
Proof.
  intros H. unfold new_names, column_mapping in H. simpl in H.
  repeat (apply elem_of_cons in H as [->|H];
          [apply (bool_decide_unpack _); vm_compute; exact I|]).
  inversion H.
Qed.

Lemma rename_label_idem (c : string) : rename_label (rename_label c) = rename_label c.
Proof.
  destruct (rename_label_cases c) as [(_ & Hn & _)|[_ E]].
  - apply new_names_not_legacy in Hn.
    destruct (rename_label_cases (rename_label c)) as [(Hl & _)|[_ E]];
      [contradiction | exact E].
  - now rewrite !E.
Qed.

Lemma rename_label_inj_legacy (k1 k2 : string) :
  k1 ∈ legacy_names -> k2 ∈ legacy_names ->
  rename_label k1 = rename_label k2 -> k1 = k2.
Proof.
  intros H1 H2. unfold legacy_names, column_mapping in H1, H2. simpl in H1, H2.
  repeat (apply elem_of_cons in H1 as [->|H1];
          [repeat (apply elem_of_cons in H2 as [->|H2];
                   [vm_compute; intros E; first [reflexivity | discriminate E]|]);
           inversion H2|]).
  inversion H1.
Qed.

(** On a raw row no two labels are renamed to the same label. *)
Lemma rename_label_inj_on (row : Row) (k1 k2 : string) :
  raw_row row -> is_Some (row !! k1) -> is_Some (row !! k2) ->
  rename_label k1 = rename_label k2 -> k1 = k2.
Proof.
  intros Hraw [v1 Hv1] [v2 Hv2] E.
  destruct (rename_label_cases k1) as [(Hl1 & Hn1 & _)|[Hl1 E1]];
    destruct (rename_label_cases k2) as [(Hl2 & Hn2 & _)|[Hl2 E2]].
  - now apply rename_label_inj_legacy.
  - rewrite E2 in E. rewrite E in Hn1. rewrite (Hraw _ Hn1) in Hv2. discriminate.
  - rewrite E1 in E. rewrite <- E in Hn2. rewrite (Hraw _ Hn2) in Hv1. discriminate.
  - congruence.
Qed.

Lemma kmap_lookup_back (f : string -> string) (row : Row) (k' : string) (v : cell) :
  kmap (M2 := gmap string) f row !! k' = Some v ->
  exists k, f k = k' /\ row !! k = Some v.
Proof.
  unfold kmap. intros H. apply elem_of_list_to_map_2 in H.
  apply list_elem_of_fmap in H as ([k x] & E & Hin). simpl in E. injection E as -> ->.
  apply elem_of_map_to_list in Hin. eauto.
Qed.

Lemma kmap_lookup_inj_on (f : string -> string) (row : Row) (k : string) (v : cell) :
  (forall k1 k2, is_Some (row !! k1) -> is_Some (row !! k2) -> f k1 = f k2 -> k1 = k2) ->
  row !! k = Some v -> kmap (M2 := gmap string) f row !! f k = Some v.
Proof.
  intros Hinj Hk. unfold kmap. apply elem_of_list_to_map_1.
  - rewrite <- list_fmap_compose.
    replace (fst ∘ prod_map f id) with (f ∘ (fst : string * cell -> string))
      by reflexivity.
    rewrite list_fmap_compose. apply NoDup_fmap_2_strong.
    + intros k1 k2 H1 H2 E. apply Hinj; [| |exact E].
      * apply list_elem_of_fmap in H1 as ([? x1] & -> & H1).
        apply elem_of_map_to_list in H1. eauto.
      * apply list_elem_of_fmap in H2 as ([? x2] & -> & H2).
        apply elem_of_map_to_list in H2. eauto.
    + apply NoDup_fst_map_to_list.
  - apply list_elem_of_fmap. exists (k, v). split; [reflexivity|].
    now apply elem_of_map_to_list.
Qed.

Lemma rename_row_lookup (row : Row) (k : string) (v : cell) :
  raw_row row -> row !! k = Some v ->
  kmap (M2 := gmap string) rename_label row !! rename_label k = Some v.
Proof.
  intros Hraw. apply kmap_lookup_inj_on.
  intros k1 k2. now apply rename_label_inj_on.
Qed.

Lemma rename_row_lookup_None (row : Row) (k' : string) :
  (forall k, rename_label k = k' -> row !! k = None) ->
  kmap (M2 := gmap string) rename_label row !! k' = None.
Proof.
  intros H.
  destruct (kmap (M2 := gmap string) rename_label row !! k') as [v|] eqn:E; [|reflexivity].
  apply kmap_lookup_back in E as (k & Hk & Hv). rewrite (H k Hk) in Hv. discriminate.
Qed.

(** ** Scoring is row by row *)

Lemma score_renamed_row_unfold (today : datetime) (r : Row) :
  score_renamed_row today r
  = n ← count_powered_flights r; after_count today (<["powered_count" := CInt n]> r).
Proof. reflexivity. Qed.




Lemma scored_columns_eq (df : DataFrame) (v1 v2 v3 v4 v5 : list cell) :
  columns (set_column "total_points" v5 (set_column "date_points" v4
            (set_column "flight_points" v3 (set_column "last_powered" v2
              (set_column "powered_count" v1 (rename_columns df))))))
  = scored_columns_of df.
Proof. reflexivity. Qed.

Lemma bind_Ok_eq {A B} (a : A) (f : A -> result B) : Ok a ≫= f = f a.
Proof. reflexivity. Qed.




(** ** The flight history of one row *)

Lemma nonblank_filled (c : cell) : textual c -> nonblank c = Ok (filled c).
Proof.
  destruct c as [|s|n]; simpl; [reflexivity| |contradiction].
  intros _. now rewrite strip_truthy.
Qed.

Lemma count_powered_loop_filled (row : Row) (p : Z -> cell) (ordinals : list Z) (count : Z) :
  (forall i, i ∈ ordinals -> row !! powered_col i = Some (p i) /\ textual (p i)) ->
  count_powered_loop row ordinals count
  = Ok (count + Z.of_nat (length (List.filter filled (p <$> ordinals)))).
Proof.
  revert count. induction ordinals as [|i rest IH]; intros count H; simpl.
  - f_equal. lia.
  - destruct (H i) as [Hi Ht]; [apply elem_of_cons; auto|].
    rewrite (getitem_Some _ _ _ Hi), bind_Ok_eq, (nonblank_filled _ Ht), bind_Ok_eq.
    rewrite IH by (intros k Hk; apply H; apply elem_of_cons; auto).
    f_equal. change (list_fmap Z cell p rest) with (p <$> rest).
    destruct (filled (p i)); simpl; lia.
Qed.

Lemma find_last_powered_loop_find (row : Row) (p : Z -> cell) (j : cell) (ordinals : list Z) :
  (forall i, i ∈ ordinals -> row !! powered_col i = Some (p i) /\ textual (p i)) ->
  row !! "Joined" = Some j ->
  find_last_powered_loop row ordinals = Ok (default j (List.find filled (p <$> ordinals))).
Proof.
  intros H Hj. induction ordinals as [|i rest IH]; simpl.
  - now apply getitem_Some.
  - destruct (H i) as [Hi Ht]; [apply elem_of_cons; auto|].
    rewrite (getitem_Some _ _ _ Hi), bind_Ok_eq, (nonblank_filled _ Ht), bind_Ok_eq.
    destruct (filled (p i)); [reflexivity|].
    apply IH. intros k Hk. apply H. apply elem_of_cons. auto.
Qed.

Lemma slot_range_up (i : Z) : i ∈ [1; 2; 3; 4; 5] -> 1 <= i <= 5.
Proof. intros H. repeat (apply elem_of_cons in H as [->|H]; [lia|]). inversion H. Qed.

Lemma slot_range_down (i : Z) : i ∈ [5; 4; 3; 2; 1] -> 1 <= i <= 5.
Proof. intros H. repeat (apply elem_of_cons in H as [->|H]; [lia|]). inversion H. Qed.

Lemma filled_count_range (p : Z -> cell) : 0 <= filled_count p <= 5.
Proof.
  unfold filled_count, slots_up.
  assert (H : Nat.le (length (List.filter filled (p <$> [1; 2; 3; 4; 5]))) 5%nat).
  { etransitivity; [apply sublist_length, bool_filter_sublist|].
    now rewrite length_fmap. }
  lia.
Qed.

Lemma filled_false_blank (c : cell) : textual c -> (filled c = false <-> blank c).
Proof.
  destruct c as [|s|n]; simpl; [| |contradiction]; intros _.
  - split; [now left | reflexivity].
  - rewrite negb_false_iff. split.
    + intros H. right. eauto.
    + intros [H|(s' & H & Hs)]; [discriminate | congruence].
Qed.

Lemma filled_nonempty (c : cell) : filled c = true -> nonempty c.
Proof.
  destruct c as [|s|n]; simpl; try discriminate.
  intros H. exists s. split; [reflexivity|]. intros ->. discriminate.
Qed.

Lemma slot_cases (i : Z) : 1 <= i <= 5 -> i = 1 \/ i = 2 \/ i = 3 \/ i = 4 \/ i = 5.
Proof. lia. Qed.

(** X2. On a row whose five powered slots are text or missing,
    [count_powered_flights] returns the number of slots that are not
    blank, between 0 and 5, and [find_last_powered_date] agrees with it: a
    count of 0 means every slot is blank and the joined date is returned;
    a positive count means a non-empty slot is returned. *)
Theorem powered_history_spec (row : Row) (p : Z -> cell) (j : cell) :
  (forall i, 1 <= i <= 5 -> row !! powered_col i = Some (p i) /\ textual (p i)) ->
  row !! "Joined" = Some j ->
  count_powered_flights row = Ok (filled_count p)
  /\ 0 <= filled_count p <= 5
  /\ find_last_powered_date row = Ok (last_filled p j)
  /\ (filled_count p = 0 <-> forall i, 1 <= i <= 5 -> blank (p i))
  /\ (filled_count p = 0 -> last_filled p j = j)
  /\ (0 < filled_count p ->
      exists i, 1 <= i <= 5 /\ last_filled p j = p i /\ nonempty (p i)).
Proof.
  intros H Hj.
  split; [|split; [apply filled_count_range | split]].
  - unfold count_powered_flights, filled_count, slots_up.
    rewrite (count_powered_loop_filled row p); [f_equal|].
    intros i Hi. apply H. now apply slot_range_up.
  - unfold find_last_powered_date, last_filled, slots_down.
    apply find_last_powered_loop_find; [|exact Hj].
    intros i Hi. apply H. now apply slot_range_down.
  - assert (Hb : forall i, 1 <= i <= 5 -> (filled (p i) = false <-> blank (p i))).
    { intros i Hi. apply filled_false_blank. now apply H. }
    pose proof (Hb 1 ltac:(lia)) as B1. pose proof (Hb 2 ltac:(lia)) as B2.
    pose proof (Hb 3 ltac:(lia)) as B3. pose proof (Hb 4 ltac:(lia)) as B4.
    pose proof (Hb 5 ltac:(lia)) as B5.
    unfold filled_count, last_filled, slots_up, slots_down. simpl.
    destruct (filled (p 1)) eqn:F1; destruct (filled (p 2)) eqn:F2;
      destruct (filled (p 3)) eqn:F3; destruct (filled (p 4)) eqn:F4;
      destruct (filled (p 5)) eqn:F5; simpl;
      (split; [split;
        [ intros E; try (exfalso; lia); intros i Hi;
          destruct (slot_cases i Hi) as [->|[->|[->|[->| ->]]]]; intuition
        | intros Hall; try reflexivity; exfalso;
          first [ assert (X : true = false) by (apply B1, Hall; lia); discriminate X
                | assert (X : true = false) by (apply B2, Hall; lia); discriminate X
                | assert (X : true = false) by (apply B3, Hall; lia); discriminate X
                | assert (X : true = false) by (apply B4, Hall; lia); discriminate X
                | assert (X : true = false) by (apply B5, Hall; lia); discriminate X ] ]
      | split;
        [ intros E; first [reflexivity | exfalso; lia]
        | intros Hpos; try (exfalso; lia);
          first [ exists 5; split; [lia | split; [reflexivity | now apply filled_nonempty]]
                | exists 4; split; [lia | split; [reflexivity | now apply filled_nonempty]]
                | exists 3; split; [lia | split; [reflexivity | now apply filled_nonempty]]
                | exists 2; split; [lia | split; [reflexivity | now apply filled_nonempty]]
                | exists 1; split; [lia | split; [reflexivity | now apply filled_nonempty]] ] ] ]).
Qed.

Lemma powered_history_spec_witness :
  count_powered_flights
    (powered_row (CStr "Jan-23") (CStr "09 Mar 2023") (CStr "  ") CNaN CNaN
                 (CStr "01 Jan 2022")) = Ok 2
  /\ find_last_powered_date
       (powered_row (CStr "Jan-23") (CStr "09 Mar 2023") (CStr "  ") CNaN CNaN
                    (CStr "01 Jan 2022")) = Ok (CStr "09 Mar 2023").
Proof.
  pose proof (powered_history_spec
    (powered_row (CStr "Jan-23") (CStr "09 Mar 2023") (CStr "  ") CNaN CNaN
                 (CStr "01 Jan 2022"))
    (slots_of (CStr "Jan-23") (CStr "09 Mar 2023") (CStr "  ") CNaN CNaN)
    (CStr "01 Jan 2022")
    ltac:(intros i Hi; destruct (slot_cases i Hi) as [->|[->|[->|[->| ->]]]];
          (split; [reflexivity | exact I]))
    eq_refl) as (Hc & _ & Hf & _).
  split; [exact Hc | exact Hf].
Defined.

(** ** Renaming keeps the cells *)

Lemma rename_label_new (old new : string) (k : string) :
  (old, new) ∈ column_mapping ->
  rename_label old = new /\ (rename_label k = new -> k = old \/ k = new).
Proof.
  intros Hin.
  assert (Hold : rename_label old = new).
  { unfold column_mapping in Hin.
    repeat (apply elem_of_cons in Hin as [Hin|Hin];
            [injection Hin as -> ->; vm_compute; reflexivity|]).
    inversion Hin. }
  split; [exact Hold|]. intros Hk.
  destruct (rename_label_cases k) as [(Hl & _)|[_ E]].
  - left. apply rename_label_inj_legacy; [exact Hl | | congruence].
    apply list_elem_of_fmap. exists (old, new). auto.
  - right. congruence.
Qed.

Lemma rename_row_new_label (row : Row) (old new : string) :
  (old, new) ∈ column_mapping -> raw_row row ->
  kmap (M2 := gmap string) rename_label row !! new = row !! old.
Proof.
  intros Hin Hraw. destruct (rename_label_new old new old Hin) as [Hold _].
  destruct (row !! old) as [v|] eqn:E.
  - rewrite <- Hold. now apply rename_row_lookup.
  - apply rename_row_lookup_None. intros k Hk.
    destruct (rename_label_new old new k Hin) as [_ Hc].
    destruct (Hc Hk) as [->| ->]; [exact E|].
    apply Hraw. apply list_elem_of_fmap. exists (old, new). auto.
Qed.

Lemma rename_row_other_label (row : Row) (k : string) :
  raw_row row -> k ∉ legacy_names -> k ∉ new_names ->
  kmap (M2 := gmap string) rename_label row !! k = row !! k.
Proof.
  intros Hraw Hl Hn.
  assert (Hk : rename_label k = k)
    by (destruct (rename_label_cases k) as [(? & _)|[_ E]]; [contradiction | exact E]).
  destruct (row !! k) as [v|] eqn:E.
  - rewrite <- Hk at 1. now apply rename_row_lookup.
  - apply rename_row_lookup_None. intros k' Hk'.
    destruct (rename_label_cases k') as [(_ & Hnew & _)|[_ E']].
    + rewrite Hk' in Hnew. contradiction.
    + congruence.
Qed.

(** X3. [rename_columns] loses nothing: it keeps the number of columns
    and of rows, leaves every label outside the mapping as it is, and
    renaming again changes no label.  On a raw row (one that carries none
    of the new names) each new label holds the cell of its legacy label,
    every other label its own cell, and every cell of the renamed row
    comes from the raw row. *)
Theorem rename_columns_keeps_cells (df : DataFrame) :
  length (columns (rename_columns df)) = length (columns df)
  /\ length (rows (rename_columns df)) = length (rows df)
  /\ columns (rename_columns (rename_columns df)) = columns (rename_columns df)
  /\ (forall c, c ∈ columns df -> c ∉ legacy_names -> c ∈ columns (rename_columns df))
  /\ (forall i row,
        rows df !! i = Some row -> raw_row row ->
        exists row',
          rows (rename_columns df) !! i = Some row'
          /\ (forall old new, (old, new) ∈ column_mapping -> row' !! new = row !! old)
          /\ (forall k, k ∉ legacy_names -> k ∉ new_names -> row' !! k = row !! k)
          /\ (forall k v, row !! k = Some v -> row' !! rename_label k = Some v)
          /\ (forall k' v, row' !! k' = Some v ->
                exists k, rename_label k = k' /\ row !! k = Some v)).
Proof.
  unfold rename_columns. cbn [columns rows].
  split; [apply length_map|]. split; [apply length_map|]. split.
  { rewrite List.map_map. apply List.map_ext. intros c. apply rename_label_idem. }
  split.
  { intros c Hc Hl. apply list_elem_of_In, in_map_iff. exists c.
    split; [|now apply list_elem_of_In].
    destruct (rename_label_cases c) as [(? & _)|[_ E]]; [contradiction | exact E]. }
  intros i row Hi Hraw.
  exists (kmap rename_label row). split.
  { pose proof (list_lookup_fmap (kmap (M2 := gmap string) rename_label) (rows df) i) as E.
    rewrite Hi in E. exact E. }
  split; [intros old new Hin; now apply rename_row_new_label|].
  split; [intros k Hl Hn; now apply rename_row_other_label|].
  split; [intros k v Hk; now apply rename_row_lookup|].
  intros k' v. apply kmap_lookup_back.
Qed.

(** ** One record through the Scorer *)

Lemma legacy_powered_mapping (i : Z) :
  1 <= i <= 5 -> (legacy_powered i, powered_col i) ∈ column_mapping.
Proof.
  intros Hi. destruct (slot_cases i Hi) as [->|[->|[->|[->| ->]]]];
    apply (bool_decide_unpack _); vm_compute; exact I.
Qed.

Lemma powered_col_not_derived (i : Z) :
  1 <= i <= 5 -> powered_col i ∉ derived_columns.
Proof.
  intros Hi. destruct (slot_cases i Hi) as [->|[->|[->|[->| ->]]]];
    apply (bool_decide_unpack _); vm_compute; exact I.
Qed.

Lemma count_powered_flights_filled (row : Row) (p : Z -> cell) :
  (forall i, 1 <= i <= 5 -> row !! powered_col i = Some (p i) /\ textual (p i)) ->
  count_powered_flights row = Ok (filled_count p).
Proof.
  intros H. unfold count_powered_flights, filled_count, slots_up.
  rewrite (count_powered_loop_filled row p); [f_equal|].
  intros i Hi. apply H. now apply slot_range_up.
Qed.

Lemma find_last_powered_date_filled (row : Row) (p : Z -> cell) (j : cell) :
  (forall i, 1 <= i <= 5 -> row !! powered_col i = Some (p i) /\ textual (p i)) ->
  row !! "Joined" = Some j ->
  find_last_powered_date row = Ok (last_filled p j).
Proof.
  intros H Hj. unfold find_last_powered_date, last_filled, slots_down.
  apply find_last_powered_loop_find; [|exact Hj].
  intros i Hi. apply H. now apply slot_range_down.
Qed.

Lemma flight_points_of_range (g : cell) (n : Z) :
  0 <= n <= 5 -> 0 <= flight_points_of g n <= 30.
Proof.
  intros Hn. unfold flight_points_of, FLIGHT_FACTOR, NO_FLIGHT_FACTOR.
  destruct (decide _); lia.
Qed.

Lemma calculate_flight_points_of (row : Row) (g : cell) (n : Z) :
  row !! "GroupType" = Some g -> row !! "powered_count" = Some (CInt n) ->
  calculate_flight_points row = Ok (CInt (flight_points_of g n)).
Proof.
  intros Hg Hn. unfold calculate_flight_points, flight_points_of.
  rewrite (getitem_Some _ _ _ Hg), bind_Ok_eq.
  destruct (decide (g = CStr "No O-Flights"));
    rewrite (getitem_Some _ _ _ Hn), bind_Ok_eq; simpl; do 2 f_equal; lia.
Qed.

Lemma score_renamed_row_Ok (today : datetime) (r : Row) (p : Z -> cell) (g j : cell) :
  (forall i, 1 <= i <= 5 -> r !! powered_col i = Some (p i) /\ textual (p i)) ->
  r !! "GroupType" = Some g -> r !! "Joined" = Some j ->
  score_renamed_row today r = Ok (scored_row_of today r p g j).
Proof.
  intros Hp Hg Hj. unfold score_renamed_row, scored_row_of.
  rewrite (count_powered_flights_filled r p Hp), bind_Ok_eq.
  rewrite (find_last_powered_date_filled _ p j), bind_Ok_eq; cycle 1.
  { intros i Hi. rewrite lookup_insert_ne; [now apply Hp|].
    intros E. apply (powered_col_not_derived i Hi). rewrite <- E.
    apply (bool_decide_unpack _); vm_compute; exact I. }
  { rewrite lookup_insert_ne by done. exact Hj. }
  rewrite (calculate_flight_points_of _ g (filled_count p)), bind_Ok_eq; cycle 1.
  { rewrite !lookup_insert_ne by done. exact Hg. }
  { rewrite lookup_insert_ne by done. apply lookup_insert_eq. }
  unfold getitem at 1. rewrite lookup_insert_ne by done.
  rewrite lookup_insert_eq, bind_Ok_eq.
  unfold calculate_total_points, getitem.
  rewrite lookup_insert_eq, lookup_insert_ne by done.
  rewrite lookup_insert_eq, !bind_Ok_eq. reflexivity.
Qed.

Lemma scored_row_of_lookup (today : datetime) (r : Row) (p : Z -> cell) (g j : cell) :
  let r' := scored_row_of today r p g j in
  r' !! "powered_count" = Some (CInt (filled_count p))
  /\ r' !! "last_powered" = Some (last_filled p j)
  /\ r' !! "flight_points" = Some (CInt (flight_points_of g (filled_count p)))
  /\ r' !! "date_points" = Some (CInt (calculate_date_points today (last_filled p j)))
  /\ r' !! "total_points"
     = Some (CInt (flight_points_of g (filled_count p)
                   + calculate_date_points today (last_filled p j)))
  /\ (forall k, k ∉ derived_columns -> r' !! k = r !! k).
Proof.
  unfold scored_row_of. cbv zeta.
  repeat split.
  - rewrite !lookup_insert_ne by done. apply lookup_insert_eq.
  - rewrite !lookup_insert_ne by done. apply lookup_insert_eq.
  - rewrite !lookup_insert_ne by done. apply lookup_insert_eq.
  - rewrite !lookup_insert_ne by done. apply lookup_insert_eq.
  - apply lookup_insert_eq.
  - intros k Hk. unfold derived_columns in Hk.
    rewrite !lookup_insert_ne; [reflexivity|..]; intros <-; apply Hk;
      apply (bool_decide_unpack _); vm_compute; exact I.
Qed.

(** X4. One record through the Scorer.  A raw row that has a group, a
    joined date and five powered slots holding text or nothing is scored
    without error; the scored row is the renamed row with five more
    cells: the count of filled slots, the last filled slot (or the joined
    date), flight points between 0 and 30, date points that are never
    negative, and their sum as total; every other cell is the renamed
    row's. *)
Theorem score_row_spec (today : datetime) (row : Row) (p : Z -> cell) (g j : cell) :
  raw_row row ->
  (forall i, 1 <= i <= 5 -> row !! legacy_powered i = Some (p i) /\ textual (p i)) ->
  row !! "GroupType" = Some g ->
  row !! "Joined" = Some j ->
  exists r',
    score_row today row = Ok r'
    /\ r' !! "powered_count" = Some (CInt (filled_count p))
    /\ r' !! "last_powered" = Some (last_filled p j)
    /\ r' !! "flight_points" = Some (CInt (flight_points_of g (filled_count p)))
    /\ r' !! "date_points" = Some (CInt (calculate_date_points today (last_filled p j)))
    /\ r' !! "total_points"
       = Some (CInt (flight_points_of g (filled_count p)
                     + calculate_date_points today (last_filled p j)))
    /\ 0 <= filled_count p <= 5
    /\ 0 <= flight_points_of g (filled_count p) <= 30
    /\ 0 <= calculate_date_points today (last_filled p j)
    /\ (forall k, k ∉ derived_columns ->
          r' !! k = kmap (M2 := gmap string) rename_label row !! k).
Proof.
  intros Hraw Hp Hg Hj.
  exists (scored_row_of today (kmap rename_label row) p g j).
  destruct (scored_row_of_lookup today (kmap rename_label row) p g j)
    as (H1 & H2 & H3 & H4 & H5 & H6).
  split.
  { apply score_renamed_row_Ok.
    - intros i Hi.
      rewrite (rename_row_new_label row _ _ (legacy_powered_mapping i Hi) Hraw).
      now apply Hp.
    - rewrite rename_row_other_label; [exact Hg | exact Hraw |..];
        apply (bool_decide_unpack _); vm_compute; exact I.
    - rewrite rename_row_other_label; [exact Hj | exact Hraw |..];
        apply (bool_decide_unpack _); vm_compute; exact I. }
  pose proof (filled_count_range p) as Hn.
  do 5 (split; [assumption|]).
  split; [exact Hn|].
  split; [now apply flight_points_of_range|].
  split; [apply calculate_date_points_nonneg | exact H6].
Qed.

Lemma score_row_spec_witness :
  exists r',
    score_row sample_today clark_row = Ok r'
    /\ r' !! "powered_count" = Some (CInt 1)
    /\ r' !! "last_powered" = Some (CStr "Feb-22")
    /\ r' !! "total_points" = Some (CInt 39).
Proof.
  destruct (score_row_spec sample_today clark_row
              (slots_of (CStr "Feb-22") (CStr "  ") CNaN CNaN CNaN)
              (CStr "Has Flights") (CStr "01 Feb 2021"))
    as (r' & H0 & H1 & H2 & _ & _ & H5 & _).
  - intros c Hc. unfold new_names, column_mapping in Hc. simpl in Hc.
    repeat (apply elem_of_cons in Hc as [->|Hc]; [vm_compute; reflexivity|]).
    inversion Hc.
  - intros i Hi. destruct (slot_cases i Hi) as [->|[->|[->|[->| ->]]]];
      (split; [vm_compute; reflexivity | exact I]).
  - vm_compute. reflexivity.
  - vm_compute. reflexivity.
  - exists r'. split; [exact H0|]. split; [exact H1|]. split; [exact H2|].
    vm_compute in H5. exact H5.
Defined.

(** ** When the flight history cannot be read *)

Lemma count_powered_loop_Ok_inv (row : Row) (ordinals : list Z) (count n : Z) :
  count_powered_loop row ordinals count = Ok n ->
  forall i, i ∈ ordinals -> readable_slot row (powered_col i).
Proof.
  revert count. induction ordinals as [|k rest IH]; intros count H i Hi.
  - inversion Hi.
  - simpl in H. unfold getitem in H.
    destruct (row !! powered_col k) as [c|] eqn:E; [|discriminate].
    rewrite bind_Ok_eq in H.
    destruct c as [|s|m]; simpl in H; try discriminate;
      (apply elem_of_cons in Hi as [->|Hi];
       [eexists; split; [exact E | exact I] | eapply IH; eauto]).
Qed.

Lemma count_powered_loop_readable (row : Row) (ordinals : list Z) (count : Z) :
  (forall i, i ∈ ordinals -> readable_slot row (powered_col i)) ->
  count_powered_loop row ordinals count
  = Ok (count + Z.of_nat (length (List.filter filled
                                    ((fun i => cell_at row (powered_col i)) <$> ordinals)))).
Proof.
  intros H. apply count_powered_loop_filled. intros i Hi.
  destruct (H i Hi) as (c & E & Hc). unfold cell_at. rewrite E. auto.
Qed.

Lemma count_powered_loop_stops (row : Row) (pre post : list Z) (i : Z) (count : Z) :
  (forall k, k ∈ pre -> readable_slot row (powered_col k)) ->
  count_powered_loop row (pre ++ i :: post) count
  = match row !! powered_col i with
    | None => Raise (KeyError (powered_col i))
    | Some (CInt _) => Raise AttributeError
    | Some c =>
        count_powered_loop row post
          ((count + Z.of_nat (length (List.filter filled
                      ((fun i => cell_at row (powered_col i)) <$> pre))))
           + (if filled c then 1 else 0))
    end.
Proof.
  revert count. induction pre as [|k pre IH]; intros count H.
  - simpl. unfold getitem. destruct (row !! powered_col i) as [[|s|m]|]; simpl;
      try reflexivity.
    + f_equal. lia.
    + rewrite strip_truthy. destruct (all_space s); simpl; f_equal; lia.
  - destruct (H k) as (c & E & Hc); [apply elem_of_cons; auto|].
    change ((k :: pre) ++ i :: post) with (k :: (pre ++ i :: post)).
    cbn [count_powered_loop].
    rewrite (getitem_Some _ _ _ E), bind_Ok_eq, (nonblank_filled _ Hc), bind_Ok_eq.
    rewrite IH by (intros k' Hk'; apply H; apply elem_of_cons; auto).
    rewrite fmap_cons. cbn [List.filter].
    assert (Ek : cell_at row (powered_col k) = c) by (unfold cell_at; now rewrite E).
    rewrite !Ek.
    set (L := List.filter filled ((fun i0 : Z => cell_at row (powered_col i0)) <$> pre)).
    destruct (row !! powered_col i) as [[|s|m]|]; try reflexivity;
      destruct (filled c); cbn [length]; f_equal;
      match goal with |- context [if ?b then 1 else 0] => destruct b end; lia.
Qed.

Lemma slot_split (i : Z) :
  1 <= i <= 5 ->
  exists pre post, [1; 2; 3; 4; 5] = pre ++ i :: post /\ forall k, k ∈ pre -> 1 <= k < i.
Proof.
  intros Hi. destruct (slot_cases i Hi) as [->|[->|[->|[->| ->]]]].
  - exists [], [2; 3; 4; 5]. split; [reflexivity|]. intros k Hk. inversion Hk.
  - exists [1], [3; 4; 5]. split; [reflexivity|]. intros k Hk.
    repeat (apply elem_of_cons in Hk as [->|Hk]; [lia|]). inversion Hk.
  - exists [1; 2], [4; 5]. split; [reflexivity|]. intros k Hk.
    repeat (apply elem_of_cons in Hk as [->|Hk]; [lia|]). inversion Hk.
  - exists [1; 2; 3], [5]. split; [reflexivity|]. intros k Hk.
    repeat (apply elem_of_cons in Hk as [->|Hk]; [lia|]). inversion Hk.
  - exists [1; 2; 3; 4], []. split; [reflexivity|]. intros k Hk.
    repeat (apply elem_of_cons in Hk as [->|Hk]; [lia|]). inversion Hk.
Qed.

(** X5. [count_powered_flights] returns a count exactly when all five
    powered slots are there and hold text or nothing.  Otherwise the
    first slot that is not so decides the exception: [KeyError] with the
    name of the column when it is missing, [AttributeError] when it
    holds a number. *)
Theorem count_powered_flights_succeeds_iff (row : Row) :
  ((exists n, count_powered_flights row = Ok n) <->
   forall i, 1 <= i <= 5 -> readable_slot row (powered_col i))
  /\ (forall i, 1 <= i <= 5 ->
      (forall k, 1 <= k < i -> readable_slot row (powered_col k)) ->
      row !! powered_col i = None ->
      count_powered_flights row = Raise (KeyError (powered_col i)))
  /\ (forall i n, 1 <= i <= 5 ->
      (forall k, 1 <= k < i -> readable_slot row (powered_col k)) ->
      row !! powered_col i = Some (CInt n) ->
      count_powered_flights row = Raise AttributeError).
Proof.
  unfold count_powered_flights. split; [split|split].
  - intros [n Hn] i Hi. apply (count_powered_loop_Ok_inv _ _ _ _ Hn).
    destruct (slot_cases i Hi) as [->|[->|[->|[->| ->]]]];
      apply (bool_decide_unpack _); vm_compute; exact I.
  - intros H. eexists. apply count_powered_loop_readable.
    intros i Hi. apply H. now apply slot_range_up.
  - intros i Hi Hpre Hnone. destruct (slot_split i Hi) as (pre & post & -> & Hk).
    rewrite count_powered_loop_stops by (intros k Hin; apply Hpre; now apply Hk).
    now rewrite Hnone.
  - intros i n Hi Hpre Hint. destruct (slot_split i Hi) as (pre & post & -> & Hk).
    rewrite count_powered_loop_stops by (intros k Hin; apply Hpre; now apply Hk).
    now rewrite Hint.
Qed.

(** ** When a record scores *)

Lemma find_last_powered_loop_scan (row : Row) (ordinals : list Z) :
  (forall i, i ∈ ordinals -> readable_slot row (powered_col i)) ->
  find_last_powered_loop row ordinals
  = match List.find filled ((fun i => cell_at row (powered_col i)) <$> ordinals) with
    | Some c => Ok c
    | None => getitem row "Joined"
    end.
Proof.
  intros H. induction ordinals as [|i rest IH]; [reflexivity|].
  destruct (H i) as (c & E & Hc); [apply elem_of_cons; auto|].
  cbn [find_last_powered_loop].
  rewrite (getitem_Some _ _ _ E), bind_Ok_eq, (nonblank_filled _ Hc), bind_Ok_eq.
  rewrite fmap_cons. cbn [List.find].
  assert (Ei : cell_at row (powered_col i) = c) by (unfold cell_at; now rewrite E).
  rewrite Ei. destruct (filled c); [reflexivity|].
  apply IH. intros k Hk. apply H. apply elem_of_cons. auto.
Qed.

Lemma find_filled_slot (row : Row) (ordinals : list Z) (c : cell) :
  List.find filled ((fun i => cell_at row (powered_col i)) <$> ordinals) = Some c ->
  exists i, i ∈ ordinals /\ cell_at row (powered_col i) = c /\ filled c = true.
Proof.
  intros H. apply find_some in H as [Hin Hf].
  apply list_elem_of_In, list_elem_of_fmap in Hin as (i & -> & Hi). eauto.
Qed.

Lemma find_filled_none (row : Row) (ordinals : list Z) (i : Z) :
  List.find filled ((fun i => cell_at row (powered_col i)) <$> ordinals) = None ->
  i ∈ ordinals -> filled (cell_at row (powered_col i)) = false.
Proof.
  intros H Hi. apply (find_none _ _ H).
  apply list_elem_of_In, list_elem_of_fmap. eauto.
Qed.

Lemma find_last_powered_loop_insert (row : Row) (k : string) (v : cell) (ordinals : list Z) :
  (forall i, i ∈ ordinals -> powered_col i <> k) -> k <> "Joined" ->
  find_last_powered_loop (<[k := v]> row) ordinals = find_last_powered_loop row ordinals.
Proof.
  intros H Hj. induction ordinals as [|i rest IH]; cbn [find_last_powered_loop].
  - unfold getitem. now rewrite lookup_insert_ne.
  - unfold getitem. rewrite lookup_insert_ne by (apply not_eq_sym, H, elem_of_cons; auto).
    destruct (row !! powered_col i) as [c|]; [|reflexivity].
    rewrite !bind_Ok_eq. destruct (nonblank c) as [[]|]; try reflexivity.
    rewrite !bind_Ok_eq. apply IH. intros i' Hi'. apply H, elem_of_cons. auto.
Qed.

Lemma find_last_powered_date_after_count (row : Row) (v : cell) :
  find_last_powered_date (<["powered_count" := v]> row) = find_last_powered_date row.
Proof.
  apply find_last_powered_loop_insert; [|discriminate].
  intros i Hi E. apply slot_range_down in Hi.
  apply (powered_col_not_derived i Hi). rewrite E.
  apply (bool_decide_unpack _); vm_compute; exact I.
Qed.

Lemma calculate_flight_points_Ok_group (row : Row) (c : cell) :
  calculate_flight_points row = Ok c -> is_Some (row !! "GroupType").
Proof.
  unfold calculate_flight_points, getitem.
  destruct (row !! "GroupType"); [eauto | discriminate].
Qed.

(** The steps of scoring on a renamed row, from the outcome of the two
    readings of the flight history. *)
Lemma score_renamed_row_steps (today : datetime) (r : Row) (n : Z) (lp g : cell) :
  count_powered_flights r = Ok n ->
  find_last_powered_date r = Ok lp ->
  r !! "GroupType" = Some g ->
  exists r', score_renamed_row today r = Ok r'.
Proof.
  intros Hn Hlp Hg. unfold score_renamed_row.
  rewrite Hn, bind_Ok_eq, find_last_powered_date_after_count, Hlp, bind_Ok_eq.
  rewrite (calculate_flight_points_of _ g n), bind_Ok_eq; cycle 1.
  { rewrite !lookup_insert_ne by done. exact Hg. }
  { rewrite lookup_insert_ne by done. apply lookup_insert_eq. }
  unfold getitem at 1. rewrite lookup_insert_ne by done.
  rewrite lookup_insert_eq, bind_Ok_eq.
  unfold calculate_total_points, getitem.
  rewrite lookup_insert_eq, lookup_insert_ne by done.
  rewrite lookup_insert_eq, !bind_Ok_eq. eauto.
Qed.

Lemma score_renamed_row_Ok_inv (today : datetime) (r r' : Row) :
  score_renamed_row today r = Ok r' ->
  exists n lp,
    count_powered_flights r = Ok n
    /\ find_last_powered_date r = Ok lp
    /\ is_Some (r !! "GroupType").
Proof.
  unfold score_renamed_row. intros H.
  apply result_bind_Ok in H as (n & Hn & H).
  apply result_bind_Ok in H as (lp & Hlp & H).
  apply result_bind_Ok in H as (fp & Hfp & _).
  rewrite find_last_powered_date_after_count in Hlp.
  apply calculate_flight_points_Ok_group in Hfp.
  rewrite !lookup_insert_ne in Hfp by done. eauto.
Qed.

(** The success condition of scoring on a renamed row. *)
Lemma score_renamed_row_succeeds_iff (today : datetime) (r : Row) :
  (exists r', score_renamed_row today r = Ok r') <->
  (forall i, 1 <= i <= 5 -> readable_slot r (powered_col i))
  /\ is_Some (r !! "GroupType")
  /\ (is_Some (r !! "Joined")
      \/ exists i, 1 <= i <= 5 /\ filled (cell_at r (powered_col i)) = true).
Proof.
  split.
  - intros [r' H]. apply score_renamed_row_Ok_inv in H as (n & lp & Hn & Hlp & Hg).
    assert (Hslots : forall i, 1 <= i <= 5 -> readable_slot r (powered_col i)).
    { intros i Hi. apply (count_powered_loop_Ok_inv _ _ _ _ Hn).
      destruct (slot_cases i Hi) as [->|[->|[->|[->| ->]]]];
        apply (bool_decide_unpack _); vm_compute; exact I. }
    split; [exact Hslots|]. split; [exact Hg|].
    unfold find_last_powered_date in Hlp.
    rewrite find_last_powered_loop_scan in Hlp
      by (intros i Hi; apply Hslots; now apply slot_range_down).
    destruct (List.find filled _) as [c|] eqn:Ef.
    + right. apply find_filled_slot in Ef as (i & Hi & <- & Hf).
      exists i. split; [now apply slot_range_down | exact Hf].
    + left. unfold getitem in Hlp. destruct (r !! "Joined"); [eauto | discriminate].
  - intros (Hslots & [g Hg] & Hj).
    assert (Hn : exists n, count_powered_flights r = Ok n).
    { eexists. apply count_powered_loop_readable.
      intros i Hi. apply Hslots. now apply slot_range_up. }
    destruct Hn as [n Hn].
    assert (Hlp : exists lp, find_last_powered_date r = Ok lp).
    { unfold find_last_powered_date.
      rewrite find_last_powered_loop_scan
        by (intros i Hi; apply Hslots; now apply slot_range_down).
      destruct (List.find filled _) as [c|] eqn:Ef; [eauto|].
      destruct Hj as [[j Hj]|(i & Hi & Hf)].
      - exists j. now apply getitem_Some.
      - rewrite (find_filled_none r _ i Ef) in Hf; [discriminate|].
        destruct (slot_cases i Hi) as [->|[->|[->|[->| ->]]]];
          apply (bool_decide_unpack _); vm_compute; exact I. }
    destruct Hlp as [lp Hlp].
    exact (score_renamed_row_steps today r n lp g Hn Hlp Hg).
Qed.

(** The success condition of scoring on a raw row. *)
Lemma score_row_scoreable (today : datetime) (row : Row) :
  raw_row row ->
  ((exists r', score_row today row = Ok r') <-> scoreable row).
Proof.
  intros Hraw. unfold scoreable, score_row. rewrite score_renamed_row_succeeds_iff.
  assert (Hp : forall i, 1 <= i <= 5 ->
            kmap (M2 := gmap string) rename_label row !! powered_col i
            = row !! legacy_powered i).
  { intros i Hi. apply rename_row_new_label; [now apply legacy_powered_mapping | exact Hraw]. }
  assert (Hg : kmap (M2 := gmap string) rename_label row !! "GroupType" = row !! "GroupType").
  { apply rename_row_other_label; [exact Hraw|..];
      apply (bool_decide_unpack _); vm_compute; exact I. }
  assert (Hj : kmap (M2 := gmap string) rename_label row !! "Joined" = row !! "Joined").
  { apply rename_row_other_label; [exact Hraw|..];
      apply (bool_decide_unpack _); vm_compute; exact I. }
  rewrite Hg, Hj. unfold readable_slot, cell_at.
  split; intros (H1 & H2 & H3); (split; [|split; [exact H2|]]).
  - intros i Hi. rewrite <- (Hp i Hi). now apply H1.
  - destruct H3 as [H3|(i & Hi & H3)]; [now left|].
    right. exists i. split; [exact Hi|]. now rewrite <- (Hp i Hi).
  - intros i Hi. rewrite (Hp i Hi). now apply H1.
  - destruct H3 as [H3|(i & Hi & H3)]; [now left|].
    right. exists i. split; [exact Hi|]. now rewrite (Hp i Hi).
Qed.

(** X6. A raw record scores exactly when its five powered slots are
    there and hold text or nothing, it has a group, and it has a joined
    date or at least one filled slot.  The glider slots, the name, the
    identifier and the content of the group and of the dates play no
    part. *)
Theorem score_row_succeeds_iff (today : datetime) (row : Row) :
  raw_row row ->
  ((exists r', score_row today row = Ok r') <->
   (forall i, 1 <= i <= 5 -> readable_slot row (legacy_powered i))
   /\ is_Some (row !! "GroupType")
   /\ (is_Some (row !! "Joined")
       \/ exists i, 1 <= i <= 5 /\ filled (cell_at row (legacy_powered i)) = true)).
Proof. intros Hraw. exact (score_row_scoreable today row Hraw). Qed.

Lemma score_row_succeeds_iff_witness :
  exists r', score_row sample_today clark_row = Ok r'.
Proof.
  apply (score_row_succeeds_iff sample_today clark_row).
  - intros c Hc. unfold new_names, column_mapping in Hc. simpl in Hc.
    repeat (apply elem_of_cons in Hc as [->|Hc]; [vm_compute; reflexivity|]).
    inversion Hc.
  - split; [|split].
    + intros i Hi. destruct (slot_cases i Hi) as [->|[->|[->|[->| ->]]]];
        (eexists; split; [vm_compute; reflexivity | exact I]).
    + eexists. vm_compute. reflexivity.
    + left. eexists. vm_compute. reflexivity.
Defined.

(** ** Date points over time *)

Lemma calculate_date_points_index (today : datetime) (c : cell) (d : datetime) :
  parse_date c = Some d ->
  calculate_date_points today c = Z.max 0 (month_index today - month_index d).
Proof.
  intros H. destruct (parse_date_Some_valid _ _ H) as [Hf _].
  unfold calculate_date_points, calculate_months_since, DATE_FACTOR, month_index.
  rewrite Hf, H. lia.
Qed.

(** X7. Waiting never costs points: with a later "today" the date points
    of a record do not go down, and of two records the one whose last
    flight lies further back has at least as many date points. *)
Theorem date_points_monotone (t1 t2 : datetime) :
  month_index t1 <= month_index t2 ->
  (forall c, calculate_date_points t1 c <= calculate_date_points t2 c)
  /\ (forall c1 c2 d1 d2,
        parse_date c1 = Some d1 -> parse_date c2 = Some d2 ->
        month_index d1 <= month_index d2 ->
        calculate_date_points t1 c2 <= calculate_date_points t2 c1).
Proof.
  intros Ht. split.
  - intros c. destruct (parse_date c) as [d|] eqn:E.
    + rewrite !(calculate_date_points_index _ _ _ E). lia.
    + destruct (parse_date_None_months t1 c E) as [_ ->].
      destruct (parse_date_None_months t2 c E) as [_ ->]. lia.
  - intros c1 c2 d1 d2 E1 E2 Hd.
    rewrite (calculate_date_points_index _ _ _ E1), (calculate_date_points_index _ _ _ E2).
    lia.
Qed.

Lemma date_points_monotone_witness :
  calculate_date_points (mk_datetime 2023 9 9) (CStr "09 Mar 2023")
  <= calculate_date_points (mk_datetime 2024 1 5) (CStr "09 Mar 2023")
  /\ calculate_date_points (mk_datetime 2023 9 9) (CStr "09 Mar 2023")
     <= calculate_date_points (mk_datetime 2024 1 5) (CStr "Dec-22").
Proof.
  destruct (date_points_monotone (mk_datetime 2023 9 9) (mk_datetime 2024 1 5))
    as [H1 H2].
  - unfold month_index. simpl. lia.
  - split; [apply H1|].
    apply (H2 (CStr "Dec-22") (CStr "09 Mar 2023")
              (mk_datetime 2022 12 1) (mk_datetime 2023 3 9)).
    + vm_compute. reflexivity.
    + vm_compute. reflexivity.
    + unfold month_index. simpl. lia.
Defined.

(** ** What the date parser accepts *)

Lemma in_m_y_value (y : Z) (s r : string) :
  In (y, r) (Strptime.m_y s) ->
  exists a b, s = String a (String b r)
    /\ PyStr.isdigit a = true /\ PyStr.isdigit b = true
    /\ y = two_digit_year (10 * PyStr.digit_value a + PyStr.digit_value b).
Proof.
  unfold Strptime.m_y. intros H.
  apply in_m_bind in H as (a & s1 & Ha & H). apply in_m_char in Ha as [-> Ha].
  apply in_m_bind in H as (b & s2 & Hb & H). apply in_m_char in Hb as [-> Hb].
  apply in_m_ret in H. injection H as -> <-. exists a, b. auto.
Qed.

Lemma digit_value_range (a : ascii) : PyStr.isdigit a = true -> 0 <= PyStr.digit_value a <= 9.
Proof. unfold PyStr.isdigit, PyStr.digit_value. lia. Qed.

Lemma two_digit_year_window (a b : ascii) :
  PyStr.isdigit a = true -> PyStr.isdigit b = true ->
  1969 <= two_digit_year (10 * PyStr.digit_value a + PyStr.digit_value b) <= 2068.
Proof.
  intros Ha Hb. apply digit_value_range in Ha, Hb. unfold two_digit_year.
  destruct (Z.leb_spec (10 * PyStr.digit_value a + PyStr.digit_value b) 68); lia.
Qed.

Lemma strptime_b_y_d_fields (t : string) (dt : datetime) :
  Strptime.strptime_b_y_d t = Some dt ->
  exists c1 c2 c3 y1 y2 dtext,
    t = String c1 (String c2 (String c3 (String "-" (String y1 (String y2 (String "-" dtext))))))
    /\ PyStr.isdigit y1 = true /\ PyStr.isdigit y2 = true
    /\ year dt = two_digit_year (10 * PyStr.digit_value y1 + PyStr.digit_value y2)
    /\ In (day dt, EmptyString) (Strptime.m_d dtext).
Proof.
  unfold Strptime.strptime_b_y_d. intros H. apply finish_Some in H as [H _].
  apply in_m_bind in H as (m & s1 & Hm & H). apply in_m_b in Hm.
  destruct Hm as (c1 & ? & -> & c2 & ? & -> & c3 & ? & -> & ->).
  unfold Strptime.m_lit in H.
  apply in_m_bind in H as (h1 & s2 & Hh1 & H). apply in_m_char in Hh1 as [-> Hh1].
  apply Ascii.eqb_eq in Hh1. subst h1.
  apply in_m_bind in H as (y & s3 & Hy & H).
  apply in_m_y_value in Hy as (y1 & y2 & -> & Hy1 & Hy2 & Hy).
  apply in_m_bind in H as (h2 & s4 & Hh2 & H). apply in_m_char in Hh2 as [-> Hh2].
  apply Ascii.eqb_eq in Hh2. subst h2.
  apply in_m_bind in H as (d & s5 & Hd & H).
  apply in_m_ret in H. injection H as Ey _ -> ->.
  exists c1, c2, c3, y1, y2, s4. repeat split; try assumption. congruence.
Qed.

(** The first format accepts six characters: a month name, a hyphen and
    two digits. *)
Lemma first_format_shape (s : string) (dt : datetime) :
  Strptime.strptime_b_y_d (s +:+ "-01") = Some dt ->
  String.length s = 6%nat /\ 1969 <= year dt <= 2068.
Proof.
  intros H. apply strptime_b_y_d_fields in H
    as (c1 & c2 & c3 & y1 & y2 & dtext & E & Hy1 & Hy2 & Hy & Hd).
  split; [|rewrite Hy; now apply two_digit_year_window].
  apply in_m_d in Hd as [(a & b & -> & Hab)|(a & -> & Ha & Hv)].
  - do 10 (try (peel s E)); try congruence. reflexivity.
  - do 9 (try (peel s E)); try congruence.
Qed.

(** X8. Whatever [parse_date] accepts is a text, and the date it returns
    is a date of the calendar.  A text with one hyphen that is accepted
    has six characters, reads as the 1st of its month, and its two-digit
    year falls between 1969 and 2068: "68" is 2068, "69" is 1969. *)
Theorem parse_date_window (c : cell) (d : datetime) :
  parse_date c = Some d ->
  exists s,
    c = CStr s
    /\ Strptime.valid_date (year d) (month d) (day d) = true
    /\ 1 <= month d <= 12
    /\ 1 <= day d <= 31
    /\ (count_char "-" s = 1%nat ->
        String.length s = 6%nat /\ day d = 1 /\ 1969 <= year d <= 2068).
Proof.
  intros H. destruct (parse_date_Some_valid _ _ H) as [_ Hv].
  destruct c as [|s|n]; try discriminate. exists s.
  split; [reflexivity|]. split; [exact Hv|].
  split; [now apply valid_date_month in Hv|]. split.
  - unfold Strptime.valid_date, Strptime.days_in_month in Hv.
    repeat match type of Hv with context [if ?b then _ else _] => destruct b end; lia.
  - intros Hc. simpl in H.
    pose proof (split_go_length "-" EmptyString s) as Hl.
    change (PyStr.split_go "-" EmptyString s) with (PyStr.split "-" s) in Hl.
    rewrite Hc in Hl. rewrite Hl in H. simpl in H.
    destruct (first_format_shape s d H) as [Hlen Hy].
    split; [exact Hlen|]. split; [|exact Hy].
    now apply strptime_b_y_d_first_day in H.
Qed.

Lemma parse_date_window_witness :
  parse_date (CStr "Jan-68") = Some (mk_datetime 2068 1 1)
  /\ parse_date (CStr "Jan-69") = Some (mk_datetime 1969 1 1)
  /\ exists s, CStr "Jan-69" = CStr s
       /\ (count_char "-" s = 1%nat -> 1969 <= year (mk_datetime 1969 1 1) <= 2068).
Proof.
  split; [vm_compute; reflexivity|]. split; [vm_compute; reflexivity|].
  destruct (parse_date_window (CStr "Jan-69") (mk_datetime 1969 1 1))
    as (s & E & _ & _ & _ & H).
  - vm_compute. reflexivity.
  - exists s. split; [exact E|]. intros Hc. now apply H.
Defined.

(** ** The last-flight label of the report *)

Lemma filled_is_text (c : cell) : filled c = true -> exists s, c = CStr s /\ s <> EmptyString.
Proof.
  destruct c as [|s|n]; try discriminate. intros H. exists s. split; [reflexivity|].
  intros ->. discriminate.
Qed.

Lemma format_last_flight_loop_scan (row : Row) (p : Z -> cell) (ordinals : list Z) :
  (forall i, i ∈ ordinals -> row !! powered_col i = Some (p i) /\ textual (p i)) ->
  format_last_flight_loop row ordinals
  = Ok (match List.find filled (p <$> ordinals) with
        | Some c => label_of c
        | None => EmptyString
        end).
Proof.
  intros H. induction ordinals as [|i rest IH]; [reflexivity|].
  destruct (H i) as [E Hc]; [apply elem_of_cons; auto|].
  cbn [format_last_flight_loop].
  rewrite (getitem_Some _ _ _ E), bind_Ok_eq, (nonblank_filled _ Hc), bind_Ok_eq.
  rewrite fmap_cons. cbn [List.find].
  destruct (filled (p i)) eqn:Ef.
  - apply filled_is_text in Ef as (s & -> & _). simpl.
    destruct (strptime_b_y s); reflexivity.
  - apply IH. intros k Hk. apply H. apply elem_of_cons. auto.
Qed.

Lemma strftime_b_y_nonempty (d : datetime) : strftime_b_y d <> EmptyString.
Proof.
  unfold strftime_b_y.
  destruct (nth (Z.to_nat (month d - 1)) month_abbr EmptyString); discriminate.
Qed.

Lemma label_of_filled (c : cell) : filled c = true -> label_of c <> EmptyString.
Proof.
  intros H. apply filled_is_text in H as (s & -> & Hs). simpl.
  destruct (strptime_b_y s); [apply strftime_b_y_nonempty | exact Hs].
Qed.

Lemma filled_count_find (p : Z -> cell) :
  (filled_count p = 0 <-> List.find filled (slots_down p) = None)
  /\ (forall j c, List.find filled (slots_down p) = Some c -> last_filled p j = c).
Proof.
  unfold filled_count, last_filled, slots_up, slots_down. simpl.
  destruct (filled (p 1)), (filled (p 2)), (filled (p 3)), (filled (p 4)), (filled (p 5));
    simpl; (split; [split; intros H; first [reflexivity | discriminate | lia]
                   | intros j c H; congruence]).
Qed.

Lemma format_last_flight_value (row : Row) (p : Z -> cell) :
  (forall i, 1 <= i <= 5 -> row !! powered_col i = Some (p i) /\ textual (p i)) ->
  row !! "powered_count" = Some (CInt (filled_count p)) ->
  format_last_flight row
  = Ok (match List.find filled (slots_down p) with
        | Some c => label_of c
        | None => EmptyString
        end).
Proof.
  intros Hp Hn. unfold format_last_flight.
  rewrite (getitem_Some _ _ _ Hn), bind_Ok_eq.
  destruct (filled_count_find p) as [H0 _].
  destruct (decide (CInt (filled_count p) = CInt 0)) as [E|E].
  - injection E as E. apply H0 in E. now rewrite E.
  - rewrite (format_last_flight_loop_scan row p)
      by (intros i Hi; apply Hp; now apply slot_range_down).
    reflexivity.
Qed.

(** X9. The last-flight label of a scored row.  With five powered slots
    of text or nothing and the count the Scorer stored, the label is
    empty exactly when the record has no powered flight; otherwise it is
    made of the slot that [find_last_powered_date] returns: month and
    year when that text reads as ["%b-%y"], else the text unchanged. *)
Theorem format_last_flight_spec (row : Row) (p : Z -> cell) :
  (forall i, 1 <= i <= 5 -> row !! powered_col i = Some (p i) /\ textual (p i)) ->
  row !! "powered_count" = Some (CInt (filled_count p)) ->
  exists label,
    format_last_flight row = Ok label
    /\ (label = EmptyString <-> filled_count p = 0)
    /\ (0 < filled_count p -> forall j, label = label_of (last_filled p j)).
Proof.
  intros Hp Hn. rewrite (format_last_flight_value row p Hp Hn).
  destruct (filled_count_find p) as [H0 Hlast].
  destruct (List.find filled (slots_down p)) as [c|] eqn:Ef.
  - exists (label_of c). split; [reflexivity|]. split.
    + apply find_some in Ef as [_ Hf]. apply label_of_filled in Hf.
      split; [contradiction|]. intros E. apply H0 in E. discriminate.
    + intros _ j. now rewrite (Hlast j c eq_refl).
  - exists EmptyString. split; [reflexivity|]. split; [tauto|].
    intros Hpos. exfalso. assert (filled_count p = 0) by now apply H0. lia.
Qed.

Lemma format_last_flight_spec_witness :
  format_last_flight
    (<["powered_count" := CInt 2]>
       (powered_row (CStr "jan-23") (CStr "09 Mar 2023") (CStr "  ") CNaN CNaN
                    (CStr "01 Jan 2022"))) = Ok "09 Mar 2023"
  /\ exists label,
       format_last_flight
         (<["powered_count" := CInt 1]>
            (powered_row (CStr "jan-23") CNaN (CStr "  ") CNaN CNaN
                         (CStr "01 Jan 2022"))) = Ok label
       /\ (0 < 1 -> label = "Jan-23").
Proof.
  split; [vm_compute; reflexivity|].
  destruct (format_last_flight_spec
              (<["powered_count" := CInt 1]>
                 (powered_row (CStr "jan-23") CNaN (CStr "  ") CNaN CNaN
                              (CStr "01 Jan 2022")))
              (slots_of (CStr "jan-23") CNaN (CStr "  ") CNaN CNaN))
    as (label & H & _ & Hl).
  - intros i Hi. destruct (slot_cases i Hi) as [->|[->|[->|[->| ->]]]];
      (split; [vm_compute; reflexivity | exact I]).
  - vm_compute. reflexivity.
  - exists label. split; [exact H|]. intros Hpos.
    rewrite (Hl Hpos CNaN). vm_compute. reflexivity.
Defined.

(** ** The label reads back *)

Lemma strptime_b_y_fields (s : string) (d : datetime) :
  strptime_b_y s = Some d ->
  day d = 1 /\ 1 <= month d <= 12 /\ 1969 <= year d <= 2068.
Proof.
  unfold strptime_b_y. intros H. apply finish_Some in H as [H Hv].
  apply valid_date_month in Hv.
  apply in_m_bind in H as (m & s1 & _ & H).
  apply in_m_bind in H as (h & s2 & _ & H).
  apply in_m_bind in H as (y & s3 & Hy & H).
  apply in_m_y_value in Hy as (a & b & _ & Ha & Hb & ->).
  apply in_m_ret in H. injection H as Ey _ Ed _.
  split; [exact Ed|]. split; [exact Hv|]. rewrite Ey.
  now apply two_digit_year_window.
Qed.

Lemma label_round_trip_table :
  forallb (fun y => forallb (label_round_trip y) months) window_years = true.
Proof. vm_compute. reflexivity. Qed.

Lemma label_round_trip_ok (y m : Z) :
  1969 <= y <= 2068 -> 1 <= m <= 12 -> label_round_trip y m = true.
Proof.
  intros Hy Hm. pose proof label_round_trip_table as H.
  rewrite forallb_forall in H.
  assert (Hin : In y window_years).
  { apply list_elem_of_In, list_elem_of_fmap. exists (Z.to_nat (y - 1969)).
    split; [lia|]. apply elem_of_seq. lia. }
  specialize (H y Hin). rewrite forallb_forall in H. apply H.
  apply list_elem_of_In, list_elem_of_fmap. exists (Z.to_nat (m - 1)).
  split; [lia|]. apply elem_of_seq. lia.
Qed.

(** X10. The label keeps the date.  For every month of every year from
    1969 to 2068 the label that [strftime] writes has six characters and
    [strptime] reads it back as the 1st of that month; so a slot that
    reads as ["%b-%y"] and its label stand for the same date, and making
    the label of a label changes nothing. *)
Theorem label_reads_back :
  (forall y m, 1969 <= y <= 2068 -> 1 <= m <= 12 ->
     strptime_b_y (strftime_b_y (mk_datetime y m 1)) = Some (mk_datetime y m 1)
     /\ String.length (strftime_b_y (mk_datetime y m 1)) = 6%nat)
  /\ (forall s d, strptime_b_y s = Some d ->
        strptime_b_y (label_of (CStr s)) = Some d
        /\ String.length (label_of (CStr s)) = 6%nat)
  /\ (forall c, label_of (CStr (label_of c)) = label_of c).
Proof.
  assert (H1 : forall y m, 1969 <= y <= 2068 -> 1 <= m <= 12 ->
     strptime_b_y (strftime_b_y (mk_datetime y m 1)) = Some (mk_datetime y m 1)
     /\ String.length (strftime_b_y (mk_datetime y m 1)) = 6%nat).
  { intros y m Hy Hm. pose proof (label_round_trip_ok y m Hy Hm) as H.
    unfold label_round_trip in H. apply andb_true_iff in H as [Ha Hb].
    apply bool_decide_eq_true in Ha. apply Nat.eqb_eq in Hb. auto. }
  assert (H2 : forall s d, strptime_b_y s = Some d ->
        strptime_b_y (label_of (CStr s)) = Some d
        /\ String.length (label_of (CStr s)) = 6%nat).
  { intros s d H. simpl. rewrite H.
    destruct (strptime_b_y_fields s d H) as (Hd & Hm & Hy).
    destruct d as [y m dd]. simpl in *. subst dd. now apply H1. }
  split; [exact H1|]. split; [exact H2|].
  intros [|s|n]; try reflexivity.
  destruct (strptime_b_y s) as [d|] eqn:E.
  - destruct (H2 s d E) as [Hr _]. simpl in *. rewrite E in *. now rewrite Hr.
  - simpl. rewrite E. simpl. now rewrite E.
Qed.

(** ** The rows of the report *)

Lemma make_entry_with_index (i k : Z) (row : Row) :
  make_entry k row = with_index k <$> make_entry i row.
Proof.
  unfold make_entry.
  destruct (getitem row "powered_count") as [pc|]; [|reflexivity]. rewrite !bind_Ok_eq.
  destruct (cell_arith _ pc) as [nf|]; [|reflexivity]. rewrite !bind_Ok_eq.
  destruct (format_last_flight row) as [lf|]; [|reflexivity]. rewrite !bind_Ok_eq.
  destruct (getitem row "CAPID") as [c|]; [|reflexivity]. rewrite !bind_Ok_eq.
  destruct (getitem row "FullName") as [nm|]; [|reflexivity]. rewrite !bind_Ok_eq.
  destruct (getitem row "total_points") as [tp|]; reflexivity.
Qed.

Lemma make_entry_index (i : Z) (row : Row) (e : entry) :
  make_entry i row = Ok e -> e_index e = i.
Proof.
  rewrite (make_entry_with_index i i).
  destruct (make_entry i row) as [e'|]; simpl; [|discriminate].
  intros H. injection H as <-. reflexivity.
Qed.

Lemma make_entry_printable (i : Z) (row : Row) :
  printable row -> exists e, make_entry i row = Ok e.
Proof.
  intros [e He]. rewrite (make_entry_with_index 0 i), He. simpl. eauto.
Qed.

Lemma write_entries_cons_Ok (start : Z) (row : Row) (rest : list Row) (e : entry) :
  make_entry start row = Ok e ->
  write_entries start (row :: rest)
  = (W_entry e :: (write_entries (start + 1) rest).1, (write_entries (start + 1) rest).2).
Proof. intros H. simpl. rewrite H. reflexivity. Qed.

Lemma ranks_from_S (start : Z) (k : nat) :
  ranks_from start (S k) = start :: ranks_from (start + 1) k.
Proof.
  unfold ranks_from. cbn [seq]. rewrite fmap_cons, <- fmap_S_seq, <- list_fmap_compose.
  f_equal; [lia|]. apply list_fmap_ext. intros _ i _. simpl. lia.
Qed.

Lemma ranks_from_app (start : Z) (a b : nat) :
  ranks_from start a ++ ranks_from (start + Z.of_nat a) b = ranks_from start (a + b).
Proof.
  revert start. induction a as [|a IH]; intros start.
  - simpl. f_equal. lia.
  - cbn [Nat.add]. rewrite !ranks_from_S. cbn [app]. f_equal.
    rewrite <- IH. do 2 f_equal. lia.
Qed.

(** X11. The rows of one section of the report carry consecutive ranks
    from the start value, one line per row in the order of the table;
    the writing stops at the first row whose line cannot be made, keeps
    the lines before it, and reports that row's exception. *)
Theorem write_entries_ranks (start : Z) (rws : list Row) :
  let w := write_entries start rws in
  (forall i c, w.1 !! i = Some c ->
     exists row e, rws !! i = Some row
       /\ make_entry (start + Z.of_nat i) row = Ok e
       /\ c = W_entry e
       /\ e_index e = start + Z.of_nat i)
  /\ (w.2 = None <-> length w.1 = length rws)
  /\ (forall x, w.2 = Some x ->
        exists row, rws !! length w.1 = Some row
          /\ make_entry (start + Z.of_nat (length w.1)) row = Raise x).
Proof.
  revert start. induction rws as [|row rest IH]; intros start.
  - simpl. split; [intros i c H; destruct i; discriminate|].
    split; [tauto | discriminate].
  - destruct (make_entry start row) as [e|x] eqn:E.
    + rewrite (write_entries_cons_Ok _ _ _ _ E). cbn [fst snd].
      destruct (IH (start + 1)) as (H1 & H2 & H3). cbv zeta in H1, H2, H3.
      split; [|split].
      * intros [|i] c Hc.
        -- injection Hc as <-. exists row, e. rewrite Z.add_0_r.
           split; [reflexivity|]. split; [exact E|]. split; [reflexivity|].
           now apply make_entry_index in E.
        -- destruct (H1 i c Hc) as (r & e' & Hr & He & -> & Hi).
           exists r, e'. replace (start + Z.of_nat (S i)) with (start + 1 + Z.of_nat i) by lia.
           auto.
      * cbn [length]. rewrite H2. lia.
      * intros x Hx. destruct (H3 x Hx) as (r & Hr & He). exists r.
        cbn [length].
        replace (start + Z.of_nat (S (length (write_entries (start + 1) rest).1)))
          with (start + 1 + Z.of_nat (length (write_entries (start + 1) rest).1)) by lia.
        auto.
    + cbn [write_entries]. rewrite E. cbn [fst snd length].
      split; [intros i c H; destruct i; discriminate|].
      split; [split; [discriminate | intros H; discriminate]|].
      intros x' Hx. injection Hx as <-. exists row. rewrite Z.add_0_r. auto.
Qed.

Lemma write_entries_printable (rws : list Row) (start : Z) :
  Forall printable rws ->
  exists es,
    write_entries start rws = (W_entry <$> es, None)
    /\ Forall2 (fun r e => make_entry (e_index e) r = Ok e) rws es
    /\ e_index <$> es = ranks_from start (length rws).
Proof.
  intros H. revert start. induction H as [|row rest Hrow _ IH]; intros start.
  - exists []. repeat split. constructor.
  - destruct (make_entry_printable start row Hrow) as [e He].
    destruct (IH (start + 1)) as (es & Hw & Hf & Hr).
    exists (e :: es). rewrite (write_entries_cons_Ok _ _ _ _ He), Hw. cbn [fst snd].
    split; [reflexivity|]. split.
    + constructor; [|exact Hf]. now rewrite (make_entry_index _ _ _ He).
    + cbn [length]. rewrite ranks_from_S, fmap_cons, Hr.
      now rewrite (make_entry_index _ _ _ He).
Qed.

Lemma entries_of_app (a b : list chunk) : entries_of (a ++ b) = entries_of a ++ entries_of b.
Proof. apply omap_app. Qed.

Lemma ids_of_app (a b : list chunk) : ids_of (a ++ b) = ids_of a ++ ids_of b.
Proof. apply omap_app. Qed.

Lemma entries_of_entries (es : list entry) : entries_of (W_entry <$> es) = es.
Proof. induction es as [|e es IH]; [reflexivity|]. cbn. unfold entries_of in IH. now rewrite IH. Qed.

Lemma ids_of_entries (es : list entry) : ids_of (W_entry <$> es) = [].
Proof. induction es as [|e es IH]; [reflexivity | exact IH]. Qed.

Lemma entries_of_ids (ids : list string) : entries_of (W_id <$> ids) = [].
Proof. induction ids as [|i ids IH]; [reflexivity | exact IH]. Qed.

Lemma ids_of_ids (ids : list string) : ids_of (W_id <$> ids) = ids.
Proof. induction ids as [|i ids IH]; [reflexivity|]. cbn. unfold ids_of in IH. now rewrite IH. Qed.

Lemma write_unmatched_content (ids : list string) :
  (write_unmatched ids).2 = None
  /\ entries_of (write_unmatched ids).1 = []
  /\ ids_of (write_unmatched ids).1 = ids.
Proof.
  destruct ids as [|i ids]; [repeat split|].
  unfold write_unmatched. cbn [fst snd]. split; [reflexivity|].
  rewrite entries_of_app, ids_of_app, entries_of_ids, ids_of_ids. split; reflexivity.
Qed.

Lemma and_then_None (cs : list chunk) (b : written) :
  and_then (cs, None) b = (cs ++ b.1, b.2).
Proof. reflexivity. Qed.

Lemma write_single_printable (rws : list Row) :
  Forall printable rws ->
  exists es,
    (write_single rws).2 = None
    /\ entries_of (write_single rws).1 = es
    /\ ids_of (write_single rws).1 = []
    /\ Forall2 (fun r e => make_entry (e_index e) r = Ok e) rws es
    /\ e_index <$> es = ranks_from 1 (length rws).
Proof.
  intros H. destruct (write_entries_printable rws 1 H) as (es & Hw & Hf & Hr).
  exists es. unfold write_single. rewrite Hw, and_then_None. cbn [fst snd].
  rewrite entries_of_app, ids_of_app, entries_of_entries, ids_of_entries.
  repeat split; assumption.
Qed.

Lemma write_split_printable (n : Z) (rws : list Row) :
  Forall printable rws ->
  exists es,
    (write_split n rws).2 = None
    /\ entries_of (write_split n rws).1 = es
    /\ ids_of (write_split n rws).1 = []
    /\ Forall2 (fun r e => make_entry (e_index e) r = Ok e) rws es
    /\ e_index <$> es
       = ranks_from 1 (length (df_head n rws))
         ++ ranks_from (n + 1) (length (iloc_from n rws)).
Proof.
  intros H.
  assert (Hh : Forall printable (df_head n rws)).
  { unfold df_head. destruct (0 <=? n); now apply Forall_take. }
  assert (Ht : Forall printable (iloc_from n rws)).
  { unfold iloc_from. destruct (0 <=? n); now apply Forall_drop. }
  destruct (write_entries_printable _ 1 Hh) as (es1 & Hw1 & Hf1 & Hr1).
  destruct (write_entries_printable _ (n + 1) Ht) as (es2 & Hw2 & Hf2 & Hr2).
  exists (es1 ++ es2). unfold write_split.
  rewrite Hw1, Hw2, !and_then_None. cbn [fst snd].
  rewrite !entries_of_app, !ids_of_app, !entries_of_entries, !ids_of_entries.
  split; [reflexivity|]. split; [reflexivity|]. split; [reflexivity|]. split.
  - rewrite <- (df_head_iloc_from n rws). now apply Forall2_app.
  - now rewrite fmap_app, Hr1, Hr2.
Qed.

(** X12. When every row can be printed, the report is written to the
    end whatever the slot count: it lists every row of the table exactly
    once, in the order of the table, and after them the unmatched
    identifiers as given.  Without a slot count, or with one that is not
    negative, the ranks run from 1 to the number of rows, across primary
    slots and alternates.  A negative slot count [n] splits too: the last
    [-n] rows are the alternates, numbered from [n + 1]. *)
Theorem report_lists_every_row (sorted_df : DataFrame) (unmatched_ids : list string)
    (slot_count : option Z) :
  Forall printable (rows sorted_df) ->
  let w := write_slotting_results sorted_df unmatched_ids slot_count in
  w.2 = None
  /\ Forall2 (fun r e => make_entry (e_index e) r = Ok e) (rows sorted_df) (entries_of w.1)
  /\ ids_of w.1 = unmatched_ids
  /\ e_index <$> entries_of w.1
     = match slot_count with
       | Some n =>
           if n <? 0
           then ranks_from 1 (length (rows sorted_df) - Z.to_nat (- n))
                ++ ranks_from (n + 1) (Nat.min (Z.to_nat (- n)) (length (rows sorted_df)))
           else ranks_from 1 (length (rows sorted_df))
       | None => ranks_from 1 (length (rows sorted_df))
       end.
Proof.
  intros H. cbv zeta.
  destruct (write_unmatched_content unmatched_ids) as (Hu2 & Hue & Hui).
  destruct (write_single_printable _ H) as (es & Hs2 & Hse & Hsi & Hsf & Hsr).
  assert (Hsingle :
    let w := and_then (write_single (rows sorted_df)) (write_unmatched unmatched_ids) in
    w.2 = None
    /\ Forall2 (fun r e => make_entry (e_index e) r = Ok e) (rows sorted_df) (entries_of w.1)
    /\ ids_of w.1 = unmatched_ids
    /\ e_index <$> entries_of w.1 = ranks_from 1 (length (rows sorted_df))).
  { cbv zeta. destruct (write_single (rows sorted_df)) as [cs o]. simpl in Hs2. subst o.
    rewrite and_then_None. cbn [fst snd] in *.
    rewrite entries_of_app, ids_of_app, Hue, Hui, Hse, Hsi, app_nil_r.
    repeat split; assumption. }
  unfold write_slotting_results. destruct slot_count as [n|]; [|exact Hsingle].
  destruct (splits (Some n) (rows sorted_df)) eqn:Esp.
  - destruct (write_split_printable n _ H) as (es' & Hp2 & Hpe & Hpi & Hpf & Hpr).
    destruct (write_split n (rows sorted_df)) as [cs o]. simpl in Hp2. subst o.
    rewrite and_then_None. cbn [fst snd] in *.
    rewrite entries_of_app, ids_of_app, Hue, Hui, Hpe, Hpi, app_nil_r.
    split; [exact Hu2|]. split; [exact Hpf|]. split; [reflexivity|].
    rewrite Hpr. unfold splits in Esp. apply andb_true_iff in Esp as [Hn0 Hlt].
    unfold df_head, iloc_from.
    destruct (Z.ltb_spec n 0) as [Hneg|Hpos].
    + replace (0 <=? n) with false by lia.
      rewrite length_take, length_drop. f_equal; f_equal; lia.
    + replace (0 <=? n) with true by lia.
      rewrite length_take, length_drop.
      replace (n + 1) with (1 + Z.of_nat (Z.to_nat n `min` length (rows sorted_df))) by lia.
      rewrite ranks_from_app. f_equal. lia.
  - destruct Hsingle as (S1 & S2 & S3 & S4). cbv zeta in *.
    split; [exact S1|]. split; [exact S2|]. split; [exact S3|]. rewrite S4.
    unfold splits in Esp. destruct (Z.ltb_spec n 0) as [Hneg|Hpos]; [|reflexivity].
    exfalso. apply andb_false_iff in Esp as [E|E].
    + apply negb_false_iff, Z.eqb_eq in E. lia.
    + apply Z.ltb_ge in E. lia.
Qed.

Lemma report_lists_every_row_witness :
  e_index <$> entries_of (write_slotting_results scored_text_ids ["200"] (Some (-1))).1
  = [1; 2; 0]
  /\ ids_of (write_slotting_results scored_text_ids ["200"] (Some (-1))).1 = ["200"].
Proof.
  assert (H : Forall printable (rows scored_text_ids)).
  { repeat constructor; eexists; vm_compute; reflexivity. }
  destruct (report_lists_every_row scored_text_ids ["200"] (Some (-1)) H)
    as (_ & _ & Hi & Hr).
  split; [exact Hr | exact Hi].
Defined.

(** ** The Slotter returns *)

Lemma bool_filter_Forall {A} (P : A -> Prop) (p : A -> bool) (l : list A) :
  Forall P l -> Forall P (List.filter p l).
Proof.
  induction 1 as [|x l Hx _ IH]; simpl; [constructor|].
  destruct (p x); [constructor|]; assumption.
Qed.

Lemma take_by_nil {A} (idx : list nat) : take_by idx ([] : list A) = [].
Proof. unfold take_by. induction idx as [|i idx IH]; [reflexivity | exact IH]. Qed.

Lemma isin_capid_nil (rws : list Row) : List.filter (isin_capid []) rws = [].
Proof.
  induction rws as [|r rws IH]; [reflexivity|]. simpl.
  unfold isin_capid at 1. destruct (r !! "CAPID") as [[|s|n]|]; exact IH.
Qed.

Lemma slot_assignment_returns (argsort : list Z -> list nat) (cap_ids : list string)
    (df : DataFrame) :
  readable_scored df -> exists s, slot_assignment argsort cap_ids df = Ok s.
Proof.
  intros (Hc & Ht & Hrows). unfold slot_assignment, get_column.
  destruct (decide ("CAPID" ∈ columns df)); [|contradiction].
  assert (Hcol : Forall2 (fun r c => r !! "CAPID" = Some c) (rows df)
                   ((fun r => default CNaN (r !! "CAPID")) <$> rows df)).
  { apply Forall2_fmap_r, Forall_Forall2_diag.
    eapply Forall_impl; [exact Hrows|]. intros r [[c Hr] _]. simpl. now rewrite Hr. }
  assert (E : mapM (fun r => getitem r "CAPID") (rows df)
              = Ok ((fun r => default CNaN (r !! "CAPID")) <$> rows df)).
  { apply mapM_result_Ok. eapply Forall2_impl; [exact Hcol|].
    intros r c. apply getitem_Some. }
  rewrite E, bind_Ok_eq. unfold set_column. cbn [rows columns].
  rewrite (set_capid_astype _ _ Hcol).
  destruct (decide ("CAPID" ∈ columns df)); [|contradiction].
  match goal with |- context [sort_values_desc argsort "total_points" ?f] =>
    destruct (sort_values_desc_returns argsort f) as [out Hout] end.
  - exact Ht.
  - cbn [rows]. apply bool_filter_Forall. apply Forall_fmap.
    eapply Forall_impl; [exact Hrows|]. intros r [[c Hr] [t Htp]]. simpl.
    exists t. unfold astype_str_row. rewrite Hr. now rewrite lookup_insert_ne.
  - rewrite Hout, bind_Ok_eq. eauto.
Qed.

Lemma write_slotting_results_empty (cols : list string) (slot_count : option Z) :
  let w := write_slotting_results (mk_df cols []) [] slot_count in
  entries_of w.1 = [] /\ ids_of w.1 = [] /\ w.2 = None.
Proof.
  destruct slot_count as [n|]; [|repeat split].
  unfold write_slotting_results, splits. cbn [rows length].
  destruct (negb (n =? 0) && (n <? Z.of_nat 0)); [|repeat split].
  unfold write_split, df_head, iloc_from.
  destruct (0 <=? n); rewrite take_nil, drop_nil; repeat split.
Qed.

(** X13. On a scored table that has the identifier and the total of
    every row, the Slotter returns a report for every candidate list,
    every slot count and every sorting routine.  When the candidate list
    is empty (the file was empty, blank, or could not be read) the
    report has no row and no unmatched identifier, and is written to the
    end. *)
Theorem slots_command_returns (argsort : list Z -> list nat) (cadet_list : text_file)
    (df : DataFrame) (slot_count : option Z) :
  readable_scored df ->
  exists w,
    slots_command argsort cadet_list (Ok df) slot_count = Ok w
    /\ (read_cadet_list cadet_list = [] ->
        entries_of w.1 = [] /\ ids_of w.1 = [] /\ w.2 = None).
Proof.
  intros Hdf. unfold slots_command. rewrite bind_Ok_eq.
  destruct (slot_assignment_returns argsort (read_cadet_list cadet_list) df Hdf)
    as [s Hs].
  rewrite Hs, bind_Ok_eq. eexists. split; [reflexivity|].
  intros Hnil. rewrite Hnil in Hs.
  apply slot_assignment_Ok in Hs as (_ & Hf & Hsort & Hu).
  rewrite isin_capid_nil in Hf.
  apply sort_values_desc_Ok in Hsort as [_ Hrows].
  rewrite Hf, take_by_nil in Hrows. simpl in Hu. rewrite Hu.
  destruct (s_sorted s) as [cols rws]. simpl in Hrows. subst rws.
  apply write_slotting_results_empty.
Qed.

Lemma slots_command_returns_witness :
  exists w,
    slots_command Npysort.argsort None (Ok scored_int_ids) (Some 1) = Ok w
    /\ entries_of w.1 = [] /\ ids_of w.1 = [] /\ w.2 = None.
Proof.
  destruct (slots_command_returns Npysort.argsort None scored_int_ids (Some 1))
    as (w & Hw & Hempty).
  - split; [|split].
    + apply (bool_decide_unpack _); vm_compute; exact I.
    + apply (bool_decide_unpack _); vm_compute; exact I.
    + repeat constructor; eexists; vm_compute; reflexivity.
  - exists w. split; [exact Hw|]. now apply Hempty.
Defined.

(** ** The Scorer returns *)





(** ** One line of the report *)

(** X15. The line of a scored row.  A row with five powered slots of
    text or nothing, the count the Scorer stored, an identifier, a name
    and a total can be printed under every rank; the entry shows the
    identifier, the name and the total as they are, the next flight
    number as the count plus one (1 to 6), and a last-flight label that
    is empty exactly for a record without powered flights. *)
Theorem make_entry_scored (i : Z) (row : Row) (p : Z -> cell) (capid name total : cell) :
  (forall k, 1 <= k <= 5 -> row !! powered_col k = Some (p k) /\ textual (p k)) ->
  row !! "powered_count" = Some (CInt (filled_count p)) ->
  row !! "CAPID" = Some capid ->
  row !! "FullName" = Some name ->
  row !! "total_points" = Some total ->
  exists label,
    make_entry i row
    = Ok (mk_entry i capid name total (CInt (filled_count p + 1)) label)
    /\ 1 <= filled_count p + 1 <= 6
    /\ (label = EmptyString <-> filled_count p = 0)
    /\ printable row.
Proof.
  intros Hp Hn Hc Hnm Ht.
  pose proof (filled_count_range p) as Hr.
  destruct (filled_count_find p) as [H0 _].
  assert (E : forall k, make_entry k row
              = Ok (mk_entry k capid name total (CInt (filled_count p + 1))
                      (match List.find filled (slots_down p) with
                       | Some c => label_of c
                       | None => EmptyString
                       end))).
  { intros k. unfold make_entry.
    rewrite (getitem_Some _ _ _ Hn), bind_Ok_eq, cell_arith_CInt, bind_Ok_eq.
    rewrite (format_last_flight_value row p Hp Hn), bind_Ok_eq.
    rewrite (getitem_Some _ _ _ Hc), bind_Ok_eq.
    rewrite (getitem_Some _ _ _ Hnm), bind_Ok_eq.
    rewrite (getitem_Some _ _ _ Ht), bind_Ok_eq. reflexivity. }
  eexists. split; [apply E|]. split; [lia|]. split.
  - destruct (List.find filled (slots_down p)) as [c|] eqn:Ef.
    + apply find_some in Ef as [_ Hf]. apply label_of_filled in Hf.
      split; [contradiction|]. intros E0. apply H0 in E0. discriminate.
    + tauto.
  - eexists. apply E.
Qed.

Lemma make_entry_scored_witness :
  exists label,
    make_entry 7 printed_row
    = Ok (mk_entry 7 (CInt 100) (CStr "Adams") (CInt 39) (CInt 2) label)
    /\ (label = EmptyString -> 1 = 0).
Proof.
  destruct (make_entry_scored 7 printed_row
              (slots_of (CStr "jan-23") CNaN (CStr "  ") CNaN CNaN)
              (CInt 100) (CStr "Adams") (CInt 39))
    as (label & H & _ & Hl & _).
  - intros k Hk. destruct (slot_cases k Hk) as [->|[->|[->|[->| ->]]]];
      (split; [vm_compute; reflexivity | exact I]).
  - vm_compute. reflexivity.
  - vm_compute. reflexivity.
  - vm_compute. reflexivity.
  - vm_compute. reflexivity.
  - exists label. split; [exact H|]. intros E. exact (proj1 Hl E).
Defined.

Lemma length_append_str (a b : string) :
  String.length (a +:+ b) = (String.length a + String.length b)%nat.
Proof. induction a as [|c a IH]; simpl; [reflexivity | now rewrite IH]. Qed.

Lemma length_replicate_char (n : nat) (c : ascii) : String.length (replicate_char n c) = n.
Proof. induction n as [|n IH]; simpl; [reflexivity | now rewrite IH]. Qed.

Lemma rjust_length (fill : ascii) (width : nat) (s : string) :
  String.length (rjust fill width s) = field_width width s.
Proof.
  unfold rjust, field_width. rewrite length_append_str, length_replicate_char. lia.
Qed.

Lemma ljust_length (fill : ascii) (width : nat) (s : string) :
  String.length (ljust fill width s) = field_width width s.
Proof.
  unfold ljust, field_width. rewrite length_append_str, length_replicate_char. lia.
Qed.

(** X16. The layout of a line.  Every field of a row is padded to the
    width of its column and never cut, so a line is as long as its
    fields need; when rank, identifier, name, total, next flight number
    and label fit their columns (3, 8, 30, 3, 1 and 8 characters) the
    line has 69 characters and the line break.  The column header has 70
    and the line break. *)
Theorem entry_line_width (e : entry) :
  String.length (render_chunk (W_entry e))
  = (field_width 3 (PyStr.of_int (e_index e)) + 2
     + field_width 8 (cell_str (e_capid e)) + 1
     + field_width 30 (cell_str (e_name e)) + 1
     + field_width 3 (cell_str (e_points e)) + 5
     + field_width 1 (cell_str (e_next e)) + 7
     + field_width 8 (e_last e) + 1)%nat
  /\ (70 <= String.length (render_chunk (W_entry e)))%nat
  /\ ((String.length (PyStr.of_int (e_index e)) <= 3)%nat ->
      (String.length (cell_str (e_capid e)) <= 8)%nat ->
      (String.length (cell_str (e_name e)) <= 30)%nat ->
      (String.length (cell_str (e_points e)) <= 3)%nat ->
      (String.length (cell_str (e_next e)) <= 1)%nat ->
      (String.length (e_last e) <= 8)%nat ->
      String.length (render_chunk (W_entry e)) = 70%nat)
  /\ String.length (render_chunk W_header) = 71%nat.
Proof.
  assert (E : String.length (render_chunk (W_entry e))
    = (field_width 3 (PyStr.of_int (e_index e)) + 2
       + field_width 8 (cell_str (e_capid e)) + 1
       + field_width 30 (cell_str (e_name e)) + 1
       + field_width 3 (cell_str (e_points e)) + 5
       + field_width 1 (cell_str (e_next e)) + 7
       + field_width 8 (e_last e) + 1)%nat).
  { cbn [render_chunk]. rewrite !length_append_str, !rjust_length, !ljust_length.
    change (String.length newline) with 1%nat.
    change (String.length "  ") with 2%nat.
    change (String.length " ") with 1%nat.
    change (String.length "     ") with 5%nat.
    change (String.length "       ") with 7%nat.
    lia. }
  split; [exact E|]. rewrite E. unfold field_width.
  split; [lia|]. split; [intros; lia|].
  vm_compute. reflexivity.
Qed.

(** ** Reading the candidate list back *)















